(** * GitHub agent: request executor, paginated fetcher, metrics fold

    A shallow embedding of [part1_github_agent/github_agent.py]:
    [http_get_json], [paginate_repos], [iso_to_dt] and [analyze_repos],
    with the properties of the fetching engine stated over it.

    Conventions.
    - A Python [str] is a [string]: header text is Latin-1, one [ascii]
      per code point; JSON text is taken in UTF-8, which preserves
      equality, byte-wise order and every ASCII character test used here.
    - A Python [int] is a [Z].
    - The network and the wall clock are oracles: the reply to the n-th
      request and the value of the n-th clock reading.  Every effect the
      code performs is threaded through an explicit [world]. *)

From Stdlib Require Import ZArith String Ascii List Bool Lia OrdersEx Sorted Permutation.
From stdpp Require Import base option list gmap strings.

Set Warnings "-register-all".

(* String concatenation on a literal prefix is left to simplification. *)
#[local] Arguments String.append !_ _ : simpl nomatch.

Open Scope string_scope.
Open Scope Z_scope.

(** ** Characters and strings, as Python treats them *)

Module Py.

Definition code (c : ascii) : Z := Z.of_nat (nat_of_ascii c).

(** [str.lower] on the Latin-1 range: A-Z and the accented capitals
    (U+00C0-U+00DE without the multiplication sign) move up by 32. *)
Definition lower_char (c : ascii) : ascii :=
  let n := code c in
  if ((65 <=? n) && (n <=? 90)) || ((192 <=? n) && (n <=? 222) && negb (n =? 215))
  then ascii_of_nat (Z.to_nat (n + 32)) else c.

Fixpoint lower (s : string) : string :=
  match s with
  | EmptyString => EmptyString
  | String c s' => String (lower_char c) (lower s')
  end.

(** Truth value of a string: non-empty. *)
Definition truthy (s : string) : bool :=
  match s with EmptyString => false | _ => true end.

Definition is_ascii_digit (c : ascii) : bool :=
  (48 <=? code c) && (code c <=? 57).

(** Characters for which [str.isdigit] holds, below U+0100: the ASCII
    digits and the superscripts one, two and three. *)
Definition is_digit_char (c : ascii) : bool :=
  is_ascii_digit c || (code c =? 178) || (code c =? 179) || (code c =? 185).

Fixpoint all_chars (p : ascii -> bool) (s : string) : bool :=
  match s with
  | EmptyString => true
  | String c s' => p c && all_chars p s'
  end.

(** [s.isdigit()]: at least one character and all of them digits. *)
Definition isdigit (s : string) : bool := truthy s && all_chars is_digit_char s.

Fixpoint digits_value (acc : Z) (s : string) : option Z :=
  match s with
  | EmptyString => Some acc
  | String c s' =>
      if is_ascii_digit c then digits_value (10 * acc + (code c - 48)) s' else None
  end.

(** [int(s)] on a string that passed [isdigit]: the decimal value, or
    [None] (a [ValueError]) when a superscript digit occurs. *)
Definition int_of_digits (s : string) : option Z :=
  if truthy s then digits_value 0 s else None.

(** Characters removed by [str.strip()], below U+0100. *)
Definition is_space (c : ascii) : bool :=
  let n := code c in
  ((9 <=? n) && (n <=? 13)) || ((28 <=? n) && (n <=? 32)) || (n =? 133) || (n =? 160).

Fixpoint lstrip (s : string) : string :=
  match s with
  | EmptyString => EmptyString
  | String c s' => if is_space c then lstrip s' else s
  end.

Fixpoint rstrip (s : string) : string :=
  match s with
  | EmptyString => EmptyString
  | String c s' =>
      match rstrip s' with
      | EmptyString => if is_space c then EmptyString else String c EmptyString
      | r => String c r
      end
  end.

Definition strip (s : string) : string := rstrip (lstrip s).

(** [s.split(sep)] for a one-character separator: never the empty list. *)
Fixpoint split (sep : ascii) (s : string) : list string :=
  match s with
  | EmptyString => [EmptyString]
  | String c s' =>
      if Ascii.eqb c sep then EmptyString :: split sep s'
      else match split sep s' with
           | [] => [String c EmptyString]
           | p :: ps => String c p :: ps
           end
  end.

Fixpoint startswith (p s : string) : bool :=
  match p, s with
  | EmptyString, _ => true
  | String a p', String b s' => Ascii.eqb a b && startswith p' s'
  | String _ _, EmptyString => false
  end.

(** [p in s]: [p] occurs in [s] as a substring. *)
Fixpoint contains (p s : string) : bool :=
  startswith p s ||
  match s with
  | EmptyString => false
  | String _ s' => contains p s'
  end.

Fixpoint drop (n : nat) (s : string) : string :=
  match n, s with
  | O, _ => s
  | S n', String _ s' => drop n' s'
  | S _, EmptyString => EmptyString
  end.

Fixpoint take (n : nat) (s : string) : string :=
  match n, s with
  | S n', String c s' => String c (take n' s')
  | _, _ => EmptyString
  end.

(** [s.find(c)] for a one-character needle; [None] stands for -1. *)
Fixpoint find (c : ascii) (s : string) : option nat :=
  match s with
  | EmptyString => None
  | String a s' => if Ascii.eqb a c then Some O else S <$> find c s'
  end.

(** [s.find(c, start)]. *)
Definition find_from (c : ascii) (s : string) (start : nat) : option nat :=
  (fun k => (start + k)%nat) <$> find c (drop start s).

(** [s[i:j]] for indices within the string. *)
Definition slice (s : string) (i j : nat) : string := take (j - i) (drop i s).

Definition dquote : ascii := "034"%char.

(** [s.replace(c, by)] for a one-character pattern: every occurrence. *)
Fixpoint replace (c : ascii) (by_ : string) (s : string) : string :=
  match s with
  | EmptyString => EmptyString
  | String a s' =>
      if Ascii.eqb a c then by_ ++ replace c by_ s' else String a (replace c by_ s')
  end.

(** [a < b] on strings: lexicographic on code points. *)
Definition str_lt (a b : string) : bool :=
  match String_as_OT.compare a b with Lt => true | _ => false end.

(** Decimal rendering of the lowest [n] digits of [z], zero padded. *)
Definition digit_char (d : Z) : ascii := ascii_of_nat (Z.to_nat (48 + d mod 10)).

Fixpoint zero_padded (n : nat) (z : Z) : string :=
  match n with
  | O => EmptyString
  | S n' => zero_padded n' (z / 10) ++ String (digit_char z) EmptyString
  end.

End Py.

(** ** JSON values, as [json.loads] returns them (numbers restricted to
    integers). *)

Inductive json : Type :=
| JNull
| JBool (b : bool)
| JInt (z : Z)
| JStr (s : string)
| JArr (items : list json)
| JObj (fields : list (string * json)).

(** ** Exceptions and results *)

(** Header fields as they arrive, in order, names in the sender's case. *)
Definition header_list := list (string * string).

Inductive exn : Type :=
| HTTPError (code : Z) (hdrs : header_list)
| URLError
| OtherException
| ValueError
| TypeError
| OverflowError
| RuntimeError (msg : string).

Inductive result (A : Type) : Type :=
| Return (a : A)
| Raise (e : exn).
Arguments Return {A} a.
Arguments Raise {A} e.

(** ** The request executor *)

Module Http.

(** What [urlopen] followed by reading and decoding the body can do. *)
Inductive reply : Type :=
| Response (hdrs : header_list) (body : option json)
    (* a 2xx response; [body] is [None] when decoding or [json.loads] raises *)
| HTTPErrorReply (code : Z) (hdrs : header_list)   (* [urllib.error.HTTPError] *)
| URLErrorReply                                     (* [urllib.error.URLError] *)
| OtherFailure.                                     (* any other [Exception] *)

Inductive event : Type :=
| EvRequest (url : string)
| EvSleep (seconds : Z).

Record world : Type := mkWorld {
  requests : nat;          (* requests sent so far *)
  clock_reads : nat;       (* [time.time()] calls so far *)
  trace : list event       (* requests and sleeps, oldest first *)
}.

Definition world0 : world := mkWorld 0 0 [].

(** State and exception monad over the world. *)
Definition M (A : Type) : Type := world -> result A * world.

Definition ret {A} (a : A) : M A := fun w => (Return a, w).
Definition raise {A} (e : exn) : M A := fun w => (Raise e, w).
Definition bind {A B} (m : M A) (k : A -> M B) : M B :=
  fun w => match m w with
           | (Return a, w') => k a w'
           | (Raise e, w') => (Raise e, w')
           end.

Notation "x <- m ;; k" := (bind m (fun x => k))
  (at level 100, m at next level, right associativity).
Notation "m ;;; k" := (bind m (fun _ => k))
  (at level 100, right associativity).

(** [email.message.Message.get]: first field whose name matches,
    letter case ignored.  This is the lookup on [e.headers]. *)
Fixpoint message_get (name : string) (hdrs : header_list) : option string :=
  match hdrs with
  | [] => None
  | (k, v) :: rest =>
      if String.eqb (Py.lower k) (Py.lower name) then Some v
      else message_get name rest
  end.

(** [{k: v for k, v in resp.headers.items()}]: a plain dictionary, a
    later field replacing an earlier one of the same spelling. *)
Definition dict_of_items (hdrs : header_list) : gmap string string :=
  fold_left (fun d kv => <[kv.1 := kv.2]> d) hdrs ∅.

Section Executor.

Variable server : nat -> string -> reply.   (* reply to the n-th request *)
Variable clock : nat -> Z.                  (* n-th value of [int(time.time())] *)

Definition urlopen (url : string) : M reply :=
  fun w => (Return (server (requests w) url),
            mkWorld (S (requests w)) (clock_reads w) (trace w ++ [EvRequest url])).

Definition time_now : M Z :=
  fun w => (Return (clock (clock_reads w)),
            mkWorld (requests w) (S (clock_reads w)) (trace w)).

Definition sleep (seconds : Z) : M unit :=
  fun w => (Return tt,
            mkWorld (requests w) (clock_reads w) (trace w ++ [EvSleep seconds])).

(** The guard of the rate-limit branch: status 403 and a reset field
    that is non-empty and passes [isdigit]. *)
Definition rate_limit_reset (code : Z) (hdrs : header_list) : option string :=
  if code =? 403 then
    match message_get "X-RateLimit-Reset" hdrs with
    | Some reset => if Py.truthy reset && Py.isdigit reset then Some reset else None
    | None => None
    end
  else None.

(** The body of [for attempt in range(retries + 1)], with [todo]
    iterations left, followed by the statements after the loop. *)
Fixpoint attempts (url : string) (retries sleep_seconds : Z)
    (todo : nat) (attempt : Z) (last_err : option exn)
    : M (json * gmap string string) :=
  match todo with
  | O =>
      match last_err with
      | Some e => raise e
      | None => raise (RuntimeError "GET failed without exception")
      end
  | S todo' =>
      let continue e := attempts url retries sleep_seconds todo' (attempt + 1) (Some e) in
      let backoff e :=
        if attempt <? retries
        then sleep (sleep_seconds * (attempt + 1)) ;;; continue e
        else raise e in
      r <- urlopen url ;;
      match r with
      | Response hdrs (Some data) => ret (data, dict_of_items hdrs)
      | Response hdrs None => backoff OtherException
      | HTTPErrorReply code hdrs =>
          let e := HTTPError code hdrs in
          match rate_limit_reset code hdrs with
          | Some reset =>
              match Py.int_of_digits reset with
              | None => raise ValueError
              | Some reset_epoch =>
                  now <- time_now ;;
                  let wait := Z.max 0 (reset_epoch - now) + 1 in
                  sleep (Z.min wait 60) ;;;
                  continue e
              end
          | None =>
              if (500 <=? code) && (code <? 600) && (attempt <? retries)
              then sleep (sleep_seconds * (attempt + 1)) ;;; continue e
              else raise e
          end
      | URLErrorReply => backoff URLError
      | OtherFailure => backoff OtherException
      end
  end.

(** [http_get_json(url, headers, retries, sleep_seconds, ssl_context)].
    The request headers and the TLS context are fixed for a run and are
    part of the [server] oracle; [sleep_seconds] is taken in whole
    seconds (its default is 1).  The line written to the diagnostic
    output before a rate-limit sleep is left out. *)
Definition http_get_json (url : string) (retries sleep_seconds : Z)
    : M (json * gmap string string) :=
  attempts url retries sleep_seconds (Z.to_nat (retries + 1)) 0 None.

End Executor.

(** *** Vocabulary for the statements about the executor *)


(** A reply with a 5xx status. *)
Definition server_error (r : reply) : Prop :=
  exists code hdrs, r = HTTPErrorReply code hdrs /\ 500 <= code < 600.

(** The exception object a failed attempt binds to [e]. *)
Definition error_of (r : reply) : exn :=
  match r with
  | HTTPErrorReply code hdrs => HTTPError code hdrs
  | URLErrorReply => URLError
  | _ => OtherException
  end.


(** The world after a request to [url] followed by a sleep. *)
Definition after_retry (url : string) (delay : Z) (reads : nat) (w : world) : world :=
  mkWorld (S (requests w)) (reads + clock_reads w)
    (trace w ++ [EvRequest url; EvSleep delay]).

(** The world after one request per delay, each followed by its sleep. *)
Definition after_retries (url : string) (delays : list Z) (reads : nat) (w : world) : world :=
  mkWorld (length delays + requests w) (reads + clock_reads w)
    (trace w ++ flat_map (fun d => [EvRequest url; EvSleep d]) delays).

(** The world after one more request to [url]. *)
Definition after_request (url : string) (w : world) : world :=
  mkWorld (S (requests w)) (clock_reads w) (trace w ++ [EvRequest url]).

(** The value of [last_err] after [n] failed attempts from world [w]. *)
Definition last_error (server : nat -> string -> reply) (url : string) (w : world)
    (n : nat) (last : option exn) : option exn :=
  match n with
  | O => last
  | S k => Some (error_of (server (k + requests w)%nat url))
  end.

(** A server that plays a fixed script of replies, whatever the address. *)
Definition scripted (replies : list reply) : nat -> string -> reply :=
  fun n _ => nth n replies OtherFailure.

(** The value of the last field spelled exactly [name]. *)
Fixpoint last_field (name : string) (hdrs : header_list) : option string :=
  match hdrs with
  | [] => None
  | (k, v) :: rest =>
      match last_field name rest with
      | Some v' => Some v'
      | None => if String.eqb k name then Some v else None
      end
  end.

(** The linear backoff schedule: [base * 1; base * 2; ...; base * n]. *)
Definition backoff_delays (base : Z) (n : nat) : list Z :=
  map (fun k => base * Z.of_nat k) (seq 1 n).

End Http.

(** ** The paginated fetcher *)

Module Fetch.
Import Http.

Definition GITHUB_API_ROOT : string := "https://api.github.com".

Definition first_page_url (username : string) : string :=
  GITHUB_API_ROOT ++ "/users/" ++ username ++ "/repos?per_page=100&type=owner&sort=updated".

(** The literal [rel="next"]. *)
Definition rel_next : string :=
  "rel=" ++ String Py.dquote ("next" ++ String Py.dquote EmptyString).

(** [resp_headers.get("Link") or resp_headers.get("link")]. *)
Definition link_header (resp_headers : gmap string string) : option string :=
  match resp_headers !! "Link" with
  | Some v => if Py.truthy v then Some v else resp_headers !! "link"
  | None => resp_headers !! "link"
  end.

(** The [for p in parts] loop: the value of [url] when it ends. *)
Fixpoint scan_parts (parts : list string) : option string :=
  match parts with
  | [] => None
  | p :: rest =>
      if Py.contains rel_next p then
        let start := Py.find "<" p in
        let end_ := Py.find_from ">" p (match start with Some i => S i | None => O end) in
        match start, end_ with
        | Some i, Some j => Some (Py.slice p (S i) j)
        | _, _ => scan_parts rest
        end
      else scan_parts rest
  end.

(** The value of [url] after a page: [None] unless the link header is
    non-empty and one of its comma-separated parts yields an address. *)
Definition next_url (resp_headers : gmap string string) : option string :=
  match link_header resp_headers with
  | Some h =>
      if Py.truthy h then scan_parts (map Py.strip (Py.split "," h)) else None
  | None => None
  end.

(** How a run of the generator ends. *)
Inductive status : Type :=
| Finished                 (* the generator is exhausted *)
| Failed (e : exn)         (* an exception left the generator *)
| Unfinished.              (* the iteration bound of the model was reached *)

Record run : Type := mkRun {
  yielded : list json;     (* the items yielded, in order *)
  outcome : status;
  final : world
}.

Section Paginate.

Variable server : nat -> string -> reply.
Variable clock : nat -> Z.

(** [while url:] with at most [fuel] iterations.  Each iteration calls
    the executor with its default budget (3 retries, base delay 1). *)
Fixpoint pages (fuel : nat) (url : option string) (w : world) : run :=
  match url with
  | None => mkRun [] Finished w
  | Some u =>
      if negb (Py.truthy u) then mkRun [] Finished w else
      match fuel with
      | O => mkRun [] Unfinished w
      | S fuel' =>
          match http_get_json server clock u 3 1 w with
          | (Raise e, w') => mkRun [] (Failed e) w'
          | (Return (data, resp_headers), w') =>
              match data with
              | JArr items =>
                  let r := pages fuel' (next_url resp_headers) w' in
                  mkRun (items ++ yielded r) (outcome r) (final r)
              | _ => mkRun [] Finished w'
              end
          end
      end
  end.

Definition paginate_repos (fuel : nat) (username : string) (w : world) : run :=
  pages fuel (Some (first_page_url username)) w.

End Paginate.

(** The addresses requested in a trace, oldest first. *)
Definition requested (t : list event) : list string :=
  flat_map (fun e => match e with EvRequest u => [u] | EvSleep _ => [] end) t.


(** *** Vocabulary for the statements about the fetcher *)

(** One page of a collection: where it is served and what is served. *)
Record page : Type := mkPage {
  address : string;
  fields : header_list;
  body : json
}.

Definition page_reply (p : page) : reply := Response (fields p) (Some (body p)).

Definition is_array (j : json) : bool :=
  match j with JArr _ => true | _ => false end.

(** The records a page contributes. *)
Definition records (p : page) : list json :=
  match body p with JArr items => items | _ => [] end.

(** The page is an array and names [next] as the page that follows. *)
Definition continues_to (p : page) (next : string) : Prop :=
  is_array (body p) = true /\
  next_url (dict_of_items (fields p)) = Some next /\
  Py.truthy next = true.



(** From request number [n0] on, the server answers the i-th request,
    when it is for the address of the i-th page, with that page. *)
Definition serves (server : nat -> string -> reply) (n0 : nat) (ps : list page) : Prop :=
  forall i p, ps !! i = Some p -> server (i + n0)%nat (address p) = page_reply p.

(** The world after one successful request per address. *)
Definition after_pages (urls : list string) (w : world) : world :=
  mkWorld (length urls + requests w) (clock_reads w) (trace w ++ map EvRequest urls).

(** The addresses requested in [fuel] iterations when every page names
    [u] as the next one. *)
Definition looped_addresses (first u : string) (fuel : nat) : list string :=
  match fuel with
  | O => []
  | S k => first :: repeat u k
  end.

(** The link field, as the specification describes it: tokens
    [<url>; rel="name"] separated by a comma and a space. *)
Definition render_link (l : string * string) : string :=
  "<" ++ l.1 ++ ">; rel=" ++ String Py.dquote (l.2 ++ String Py.dquote EmptyString).

Fixpoint link_tail (ls : list (string * string)) : string :=
  match ls with
  | [] => EmptyString
  | l :: ls' => ", " ++ render_link l ++ link_tail ls'
  end.

Definition link_value (ls : list (string * string)) : string :=
  match ls with
  | [] => EmptyString
  | l :: ls' => render_link l ++ link_tail ls'
  end.



Definition avoids (c : ascii) (s : string) : bool :=
  Py.all_chars (fun a => negb (Ascii.eqb a c)) s.

(** [p] is the end of [s]. *)
Fixpoint endswith (p s : string) : bool :=
  String.eqb s p ||
  match s with
  | EmptyString => false
  | String _ s' => endswith p s'
  end.


End Fetch.

(** ** Dates and times *)

Module Datetime.

(** A [datetime.datetime]: its fields, and its offset from UTC in
    microseconds ([None] for a naive value). *)
Record datetime : Type := mkDatetime {
  year : Z; month : Z; day : Z;
  hour : Z; minute : Z; second : Z; microsecond : Z;
  utcoffset : option Z
}.

Definition is_leap (y : Z) : bool :=
  (y mod 4 =? 0) && (negb (y mod 100 =? 0) || (y mod 400 =? 0)).

Definition days_in_month (y m : Z) : Z :=
  if m =? 2 then (if is_leap y then 29 else 28)
  else if (m =? 4) || (m =? 6) || (m =? 9) || (m =? 11) then 30 else 31.

Definition days_before_year (y : Z) : Z :=
  let y' := y - 1 in y' * 365 + y' / 4 - y' / 100 + y' / 400.

Definition days_before_month (y m : Z) : Z :=
  nth (Z.to_nat m) [0; 0; 31; 59; 90; 120; 151; 181; 212; 243; 273; 304; 334] 0
  + (if (2 <? m) && is_leap y then 1 else 0).

(** [date.toordinal]: 1 for the first of January of year 1. *)
Definition ymd2ord (y m d : Z) : Z :=
  days_before_year y + days_before_month y m + d.

Definition micros_per_second : Z := 1000000.
Definition micros_per_day : Z := 86400 * micros_per_second.

(** The wall-clock reading of a datetime on one axis, in microseconds.
    On valid field values the order of these readings is the order of
    the field tuples, which is how two datetimes of equal offset compare. *)
Definition wall_micros (d : datetime) : Z :=
  ymd2ord (year d) (month d) (day d) * micros_per_day
  + (hour d * 3600 + minute d * 60 + second d) * micros_per_second
  + microsecond d.

(** Comparison of two datetimes: [None] is the [TypeError] raised for a
    naive value against an aware one. *)
Definition compare (a b : datetime) : option comparison :=
  match utcoffset a, utcoffset b with
  | None, None => Some (wall_micros a ?= wall_micros b)
  | Some oa, Some ob => Some (wall_micros a - oa ?= wall_micros b - ob)
  | _, _ => None
  end.

(** The instants a [datetime] holds, on the axis of [wall_micros]: from
    0001-01-01T00:00:00 to 9999-12-31T23:59:59.999999. *)
Definition in_range (t : Z) : bool :=
  (micros_per_day <=? t) && (t <? 3652060 * micros_per_day).

(** [t - timedelta(days=n)] for an aware instant [t].  [OverflowError]
    is raised by [timedelta] for more than 999999999 days, and by the
    subtraction for a result that no [datetime] holds. *)
Definition minus_days (t n : Z) : result Z :=
  if (Z.abs n <=? 999999999) && in_range (t - n * micros_per_day)
  then Return (t - n * micros_per_day)
  else Raise OverflowError.

(** [%Y], which [strftime] hands to the C library: glibc writes the
    year in decimal without leading zeros, so that a year before 1000
    has fewer than four digits.  The year of a [datetime] is between 1
    and 9999. *)
Definition year_text (y : Z) : string :=
  Py.zero_padded
    (if y <? 10 then 1 else if y <? 100 then 2 else if y <? 1000 then 3 else 4) y.

(** [d.strftime("%Y-%m")]. *)
Definition strftime_Ym (d : datetime) : string :=
  year_text (year d) ++ "-" ++ Py.zero_padded 2 (month d).

Definition offset_text (off : Z) : string :=
  let a := Z.abs off in
  let ss := (a mod (60 * micros_per_second)) / micros_per_second in
  let us := a mod micros_per_second in
  (if off <? 0 then "-" else "+")
  ++ Py.zero_padded 2 (a / (3600 * micros_per_second)) ++ ":"
  ++ Py.zero_padded 2 ((a mod (3600 * micros_per_second)) / (60 * micros_per_second))
  ++ (if (ss =? 0) && (us =? 0) then EmptyString else ":" ++ Py.zero_padded 2 ss)
  ++ (if us =? 0 then EmptyString else "." ++ Py.zero_padded 6 us).

(** [d.isoformat()]. *)
Definition isoformat (d : datetime) : string :=
  Py.zero_padded 4 (year d) ++ "-" ++ Py.zero_padded 2 (month d) ++ "-"
  ++ Py.zero_padded 2 (day d) ++ "T" ++ Py.zero_padded 2 (hour d) ++ ":"
  ++ Py.zero_padded 2 (minute d) ++ ":" ++ Py.zero_padded 2 (second d)
  ++ (if microsecond d =? 0 then EmptyString else "." ++ Py.zero_padded 6 (microsecond d))
  ++ match utcoffset d with
     | None => EmptyString
     | Some off => offset_text off
     end.

(** *** The library parser on the extended format

    [datetime.fromisoformat] on [YYYY-MM-DD], [YYYY-MM-DD?HH:MM:SS] and
    [YYYY-MM-DD?HH:MM:SS+HH:MM] (or [-HH:MM]), [?] being any one
    character.  The fold below is stated for an arbitrary parser; this
    one serves the worked examples. *)

Fixpoint digits (n : nat) (acc : Z) (s : string) : option (Z * string) :=
  match n with
  | O => Some (acc, s)
  | S n' =>
      match s with
      | String c s' =>
          if Py.is_ascii_digit c then digits n' (10 * acc + (Py.code c - 48)) s' else None
      | EmptyString => None
      end
  end.

Definition expect (c : ascii) (s : string) : option string :=
  match s with
  | String a s' => if Ascii.eqb a c then Some s' else None
  | EmptyString => None
  end.

Definition parse_date (s : string) : option (Z * Z * Z * string) :=
  '(y, s) ← digits 4 0 s; s ← expect "-" s;
  '(m, s) ← digits 2 0 s; s ← expect "-" s;
  '(d, s) ← digits 2 0 s;
  if (1 <=? y) && (1 <=? m) && (m <=? 12) && (1 <=? d) && (d <=? days_in_month y m)
  then Some (y, m, d, s) else None.

Definition parse_hms (s : string) : option (Z * Z * Z * string) :=
  '(h, s) ← digits 2 0 s; s ← expect ":" s;
  '(mi, s) ← digits 2 0 s; s ← expect ":" s;
  '(sec, s) ← digits 2 0 s;
  if (h <? 24) && (mi <? 60) && (sec <? 60) then Some (h, mi, sec, s) else None.

Definition parse_offset (s : string) : option (option Z) :=
  match s with
  | EmptyString => Some None
  | String c s' =>
      sign ← (if Ascii.eqb c "+" then Some 1
              else if Ascii.eqb c "-" then Some (-1) else None);
      '(h, s') ← digits 2 0 s'; s' ← expect ":" s';
      '(mi, s') ← digits 2 0 s';
      match s' with
      | EmptyString =>
          if (h <? 24) && (mi <? 60)
          then Some (Some (sign * (h * 3600 + mi * 60) * micros_per_second))
          else None
      | _ => None
      end
  end.

Definition fromisoformat (s : string) : option datetime :=
  '(y, m, d, s) ← parse_date s;
  match s with
  | EmptyString => Some (mkDatetime y m d 0 0 0 0 None)
  | String _ s' =>
      '(h, mi, sec, s') ← parse_hms s';
      off ← parse_offset s';
      Some (mkDatetime y m d h mi sec 0 off)
  end.

End Datetime.

(** ** The metrics fold *)

(** The finished summary: the dictionary [analyze_repos] returns. *)
Module Summary.
Record t : Type := mk {
  repo_count : Z;
  total_stars : Z;
  total_forks : Z;
  languages : list (string * Z);
  updated_last_30d : Z;
  updated_last_90d : Z;
  last_pushed_at : option string;
  last_updated_at : option string;
  monthly_update_counts : list (string * Z)
}.
End Summary.

Module Metrics.
Import Datetime.

(** One repository record, by what [repo.get] returns for each key the
    fold reads: [None] for a missing key or a JSON null, otherwise a
    value of the type the API gives that key (integer or string). *)
Record repo : Type := mkRepo {
  stargazers_count : option Z;
  forks_count : option Z;
  language : option string;
  pushed_at : option string;
  updated_at : option string
}.

(** [int(x or 0)]. *)
Definition int_or_0 (x : option Z) : Z :=
  match x with Some z => z | None => 0 end.

(** A [Counter] or [defaultdict(int)]: keys in insertion order. *)
Definition counter := list (string * Z).

(** [c[k] += 1]. *)
Fixpoint incr (k : string) (c : counter) : counter :=
  match c with
  | [] => [(k, 1)]
  | (k', n) :: rest =>
      if String.eqb k' k then (k', n + 1) :: rest else (k', n) :: incr k rest
  end.

(** [c[k]], 0 for a key that is not there. *)
Fixpoint count (k : string) (c : counter) : Z :=
  match c with
  | [] => 0
  | (k', n) :: rest => if String.eqb k' k then n else count k rest
  end.

(** [c.get(k)]. *)
Fixpoint get (k : string) (c : counter) : option Z :=
  match c with
  | [] => None
  | (k', n) :: rest => if String.eqb k' k then Some n else get k rest
  end.

(** [sorted] is stable: an item is placed after the items that come
    strictly before it, and in front of all others. *)
Section StableSort.

Context {A : Type} (before : A -> A -> bool).

Fixpoint place (x : A) (l : list A) : list A :=
  match l with
  | [] => [x]
  | y :: l' => if before y x then y :: place x l' else x :: y :: l'
  end.

Definition stable_sort (l : list A) : list A := foldr place [] l.

(** In the output no item is followed by one that comes before it. *)
Definition in_order (a b : A) : Prop := before b a = false.

End StableSort.

(** [sorted(..., key=itemgetter(1), reverse=True)]: larger counts first. *)
Definition larger_count (a b : string * Z) : bool := b.2 <? a.2.

(** [Counter.most_common()]. *)
Definition most_common (c : counter) : counter := stable_sort larger_count c.

(** [(k1, n1) < (k2, n2)] on tuples. *)
Definition item_lt (a b : string * Z) : bool :=
  Py.str_lt a.1 b.1 || (String.eqb a.1 b.1 && (a.2 <? b.2)).

(** [sorted(c.items())]. *)
Definition sorted_items (c : counter) : counter := stable_sort item_lt c.

(** The local variables of [analyze_repos] that the loop updates, and
    the number of clock readings taken so far. *)
Record locals : Type := mkLocals {
  total_stars : Z;
  total_forks : Z;
  languages : counter;
  last_pushed_at : option datetime;
  last_updated_at : option datetime;
  monthly_update_counts : counter;
  updated_last_30d : Z;
  updated_last_90d : Z;
  clock_reads : nat
}.

Section Fold.

Variable fromisoformat : string -> option datetime.
(** The n-th reading of [datetime.now(timezone.utc)], in microseconds on
    the axis of [wall_micros]. *)
Variable now : nat -> Z.

Definition iso_to_dt (s : option string) : option datetime :=
  match s with
  | None => None
  | Some s => if Py.truthy s then fromisoformat (Py.replace "Z" "+00:00" s) else None
  end.

(** [if t and (last is None or t > last): last = t]. *)
Definition most_recent (t last : option datetime) : result (option datetime) :=
  match t, last with
  | None, _ => Return last
  | Some d, None => Return (Some d)
  | Some d, Some l =>
      match compare d l with
      | None => Raise TypeError
      | Some Gt => Return (Some d)
      | Some _ => Return last
      end
  end.

(** [d >= t] for an aware instant [t]. *)
Definition not_before (d : datetime) (t : Z) : result bool :=
  match utcoffset d with
  | None => Raise TypeError
  | Some off => Return (t <=? wall_micros d - off)
  end.

(** The body of [for repo in repos]. *)
Definition fold_repo (cutoff : Z) (st : locals) (r : repo) : result locals :=
  let stars := total_stars st + int_or_0 (stargazers_count r) in
  let forks := total_forks st + int_or_0 (forks_count r) in
  let langs :=
    match language r with
    | Some lang => if Py.truthy lang then incr lang (languages st) else languages st
    | None => languages st
    end in
  let pushed := iso_to_dt (pushed_at r) in
  let updated := iso_to_dt (updated_at r) in
  match most_recent pushed (last_pushed_at st) with
  | Raise e => Raise e
  | Return lp =>
  match most_recent updated (last_updated_at st) with
  | Raise e => Raise e
  | Return lu =>
      match updated with
      | None =>
          Return (mkLocals stars forks langs lp lu (monthly_update_counts st)
                    (updated_last_30d st) (updated_last_90d st) (clock_reads st))
      | Some u =>
          let monthly := incr (strftime_Ym u) (monthly_update_counts st) in
          match minus_days (now (clock_reads st)) 30 with
          | Raise e => Raise e
          | Return mark =>
          match not_before u mark with
          | Raise e => Raise e
          | Return in30 =>
          match not_before u cutoff with
          | Raise e => Raise e
          | Return in90 =>
              Return (mkLocals stars forks langs lp lu monthly
                        (updated_last_30d st + (if in30 then 1 else 0))
                        (updated_last_90d st + (if in90 then 1 else 0))
                        (S (clock_reads st)))
          end end end
      end
  end end.

Fixpoint fold_repos (cutoff : Z) (st : locals) (repos : list repo) : result locals :=
  match repos with
  | [] => Return st
  | r :: rest =>
      match fold_repo cutoff st r with
      | Raise e => Raise e
      | Return st' => fold_repos cutoff st' rest
      end
  end.

(** The locals before the loop; the clock has been read once, for [cutoff]. *)
Definition initial : locals := mkLocals 0 0 [] None None [] 0 0 1.

Definition finish (n : nat) (st : locals) : Summary.t :=
  Summary.mk (Z.of_nat n) (total_stars st) (total_forks st)
    (most_common (languages st))
    (updated_last_30d st) (updated_last_90d st)
    (isoformat <$> last_pushed_at st) (isoformat <$> last_updated_at st)
    (sorted_items (monthly_update_counts st)).

Definition analyze_repos (repos : list repo) (since_days : Z) : result Summary.t :=
  match minus_days (now O) since_days with
  | Raise e => Raise e
  | Return cutoff =>
      match fold_repos cutoff initial repos with
      | Raise e => Raise e
      | Return st => Return (finish (length repos) st)
      end
  end.

(** *** Vocabulary for the statements about the fold *)

(** The language a record counts for: its language field when that is
    neither null nor empty. *)
Definition counted_language (r : repo) : option string :=
  match language r with
  | Some lang => if Py.truthy lang then Some lang else None
  | None => None
  end.

(** The month a record counts for. *)
Definition counted_month (r : repo) : option string :=
  strftime_Ym <$> iso_to_dt (updated_at r).

(** An independent recount: the records whose [updated_at] parses to a
    date in the month [ym]. *)
Definition month_count (ym : string) (repos : list repo) : Z :=
  Z.of_nat (length (List.filter
    (fun r => match iso_to_dt (updated_at r) with
              | Some d => String.eqb (strftime_Ym d) ym
              | None => false
              end) repos)).

End Fold.

(** An independent recount: the records whose language field is [l]. *)
Definition language_count (l : string) (repos : list repo) : Z :=
  Z.of_nat (length (List.filter
    (fun r => match language r with
              | Some x => String.eqb x l
              | None => false
              end) repos)).

(** [list(c)]: the keys in insertion order. *)
Definition keys (c : counter) : list string := map fst c.

(** [k in l]. *)
Definition mem (k : string) (l : list string) : bool := existsb (String.eqb k) l.

(** [keys] tallied into a counter, one after the other. *)
Definition tally (ks : list string) (c : counter) : counter :=
  fold_left (fun c k => incr k c) ks c.

Definition occurrences (k : string) (ks : list string) : Z :=
  Z.of_nat (length (List.filter (fun x => String.eqb x k) ks)).

(** The distinct elements of a list, in the order of their first
    occurrence. *)
Fixpoint first_seen (l : list string) : list string :=
  match l with
  | [] => []
  | x :: l' => x :: List.filter (fun y => negb (String.eqb y x)) (first_seen l')
  end.

(** An entry with count [n] when [n] is not zero, no entry otherwise. *)
Definition entry (n : Z) : option Z := if n =? 0 then None else Some n.

(** A tracked timestamp has not gone back: it is unchanged, or replaced
    by one that compares greater. *)
Definition advanced (old new : option datetime) : Prop :=
  match old, new with
  | None, _ => True
  | Some o, Some n => n = o \/ compare n o = Some Gt
  | Some _, None => False
  end.

(** Every counter of [st'] is at least its value in [st], and the
    tracked timestamps have not gone back.  The two totals are left to
    [totals_grow]. *)
Definition counters_grow (st st' : locals) : Prop :=
  (forall l, count l (languages st) <= count l (languages st')) /\
  (forall ym, count ym (monthly_update_counts st) <= count ym (monthly_update_counts st')) /\
  updated_last_30d st <= updated_last_30d st' /\
  updated_last_90d st <= updated_last_90d st' /\
  advanced (last_pushed_at st) (last_pushed_at st') /\
  advanced (last_updated_at st) (last_updated_at st').

Definition totals_grow (st st' : locals) : Prop :=
  total_stars st <= total_stars st' /\ total_forks st <= total_forks st'.

(** Two sets of locals that differ at most in the rolling counters. *)
Definition same_but_activity (a b : locals) : Prop :=
  total_stars a = total_stars b /\
  total_forks a = total_forks b /\
  languages a = languages b /\
  last_pushed_at a = last_pushed_at b /\
  last_updated_at a = last_updated_at b /\
  monthly_update_counts a = monthly_update_counts b /\
  clock_reads a = clock_reads b.

(** The same outcome: the same exception, or locals that differ at
    most in the rolling counters. *)
Definition alike (a b : result locals) : Prop :=
  match a, b with
  | Return x, Return y => same_but_activity x y
  | Raise e1, Raise e2 => e1 = e2
  | _, _ => False
  end.

(** The star and fork counts of a record are not negative. *)
Definition counts_not_negative (r : repo) : Prop :=
  0 <= int_or_0 (stargazers_count r) /\ 0 <= int_or_0 (forks_count r).

End Metrics.

(** ** Worked inputs *)

Module Sample.
Import Http.

Definition url : string := Fetch.first_page_url "octocat".

Definition page_body : json := JArr [JObj [("name", JStr "hello-world")]].

Definition ok : reply := Response [("Content-Type", "application/json")] (Some page_body).

Definition unavailable : reply := HTTPErrorReply 503 [].

(** A rate-limit reply whose window ends an hour after the first clock
    reading below. *)
Definition limit_headers : header_list := [("x-ratelimit-reset", "1700003600")].
Definition limited : reply := HTTPErrorReply 403 limit_headers.
Definition always_limited : nat -> string -> reply := fun _ _ => limited.

(** A clock that has moved on by a minute at each reading. *)
Definition ticking (n : nat) : Z := 1700000000 + 60 * Z.of_nat n.

(** A clock that stands still during a run. *)
Definition clock_at (d : Datetime.datetime) : nat -> Z := fun _ => Datetime.wall_micros d.

Definition midnight : Datetime.datetime := Datetime.mkDatetime 2024 2 14 0 0 0 0 (Some 0).
Definition a_second_later : Datetime.datetime := Datetime.mkDatetime 2024 2 14 0 0 1 0 (Some 0).

Definition updated (s : string) : Metrics.repo :=
  Metrics.mkRepo None None None None (Some s).

Definition three_updates : list Metrics.repo :=
  [updated "2024-01-15T00:00:00Z"; updated "2024-01-20T00:00:00Z";
   updated "2024-02-01T00:00:00Z"].

Definition written_in (lang : string) (stars : Z) : Metrics.repo :=
  Metrics.mkRepo (Some stars) (Some 0) (Some lang) (Some "2024-01-10T08:30:00Z")
    (Some "2024-01-12T09:00:00Z").

Definition portfolio : list Metrics.repo :=
  [written_in "Go" 10; written_in "C" 5; written_in "Python" 1;
   written_in "C" 0; written_in "Go" 3].

(** A record with a negative star count, and one with an empty language. *)
Definition negative_stars : Metrics.repo := Metrics.mkRepo (Some (-1)) None None None None.
Definition empty_language : Metrics.repo := Metrics.mkRepo None None (Some EmptyString) None None.

(** A 2xx reply whose link field arrives in capitals. *)
(** A collection of two pages, linked the way the API links them. *)
Definition page2_url : string := "https://api.github.com/user/583231/repos?page=2".

Definition first_page : Fetch.page :=
  Fetch.mkPage url
    [("Link", Fetch.link_value [(page2_url, "next"); (page2_url, "last")])]
    (JArr [JObj [("name", JStr "alpha")]; JObj [("name", JStr "beta")]]).



(** A server whose every page names the same page as the next one. *)
Definition looping : nat -> string -> reply :=
  fun _ _ =>
    Response [("Link", Fetch.link_value [(page2_url, "next")])]
      (Some (JArr [JObj [("name", JStr "alpha")]])).

Definition shouting : reply := Response [("LINK", "<https://example.org/2>; rel=next")] (Some page_body).

End Sample.

(** ** Further vocabulary: the replies the executor tells apart *)

Module Replies.
Import Http.

(** A failure that is retried with backoff whatever its status: a
    transport error, any other exception, or a 2xx reply whose body
    does not decode. *)
Definition is_transient (r : reply) : bool :=
  match r with
  | URLErrorReply | OtherFailure | Response _ None => true
  | _ => false
  end.

(** A failure that is retried with backoff: a transient one or a 5xx
    status that does not take the rate-limit branch. *)
Definition is_backed_off (r : reply) : bool :=
  match r with
  | HTTPErrorReply code hdrs => (500 <=? code) && (code <? 600)
  | _ => is_transient r
  end.

(** An HTTP error that is neither rate limiting nor a 5xx status. *)
Definition is_client_error (r : reply) : bool :=
  match r with
  | HTTPErrorReply code hdrs =>
      negb ((500 <=? code) && (code <? 600)) &&
      match rate_limit_reset code hdrs with Some _ => false | None => true end
  | _ => false
  end.


(** Header lists that differ at most in the letter case of the names. *)
Definition same_up_to_case (a b : header_list) : Prop :=
  Forall2 (fun x y => Py.lower x.1 = Py.lower y.1 /\ x.2 = y.2) a b.

End Replies.

(** ** Further vocabulary: a crawl that is cut short *)

Module Crawl.
Import Http Fetch.

(** Each page of [ps] continues to the one after it, the last of them
    to the address [a]. *)
Fixpoint linked (ps : list page) (a : string) : Prop :=
  match ps with
  | [] => True
  | p :: ps' =>
      continues_to p (match ps' with [] => a | q :: _ => address q end) /\ linked ps' a
  end.

(** The address of the first request: that of the first page, or [a]
    when there is no page. *)
Definition start (ps : list page) (a : string) : string :=
  match ps with [] => a | p :: _ => address p end.

End Crawl.

(** ** Further vocabulary: recounting what the fold computes *)

Module Recount.
Import Datetime Metrics.

(** The sum of a count field over the records, null counting as 0. *)
Definition sum_of (field : repo -> option Z) (repos : list repo) : Z :=
  foldr (fun r acc => int_or_0 (field r) + acc) 0 repos.

(** The sum of the counts of a table. *)
Definition table_total (c : counter) : Z := foldr (fun e acc => e.2 + acc) 0 c.

Definition aware (d : datetime) : bool :=
  match utcoffset d with Some _ => true | None => false end.

(** The point in time of an aware datetime, on the axis of the clock. *)
Definition instant (d : datetime) : Z :=
  wall_micros d - match utcoffset d with Some off => off | None => 0 end.

Definition earlier (a b : datetime) : Prop := compare a b = Some Lt.

Definition not_later (a b : datetime) : Prop :=
  compare a b = Some Lt \/ compare a b = Some Eq.

(** [d] is in [ds], everything before it is earlier and nothing after
    it is later: the first of the latest. *)
Definition first_latest (d : datetime) (ds : list datetime) : Prop :=
  exists l1 l2,
    ds = (l1 ++ d :: l2)%list /\
    Forall (fun x => earlier x d) l1 /\
    Forall (fun x => not_later x d) l2.


(** The tracked timestamp after the dates [ds], starting from [last]. *)
Fixpoint track (last : option datetime) (ds : list datetime) : result (option datetime) :=
  match ds with
  | [] => Return last
  | d :: ds' =>
      match most_recent (Some d) last with
      | Return last' => track last' ds'
      | Raise e => Raise e
      end
  end.

(** The dates at or after the 30-day mark of the clock reading taken
    for each of them, the first one with reading number [k]. *)
Fixpoint recent_30 (now : nat -> Z) (k : nat) (ds : list datetime) : Z :=
  match ds with
  | [] => 0
  | d :: ds' =>
      (if now k - 30 * micros_per_day <=? instant d then 1 else 0)
      + recent_30 now (S k) ds'
  end.

(** The dates at or after [cutoff]. *)
Fixpoint recent_since (cutoff : Z) (ds : list datetime) : Z :=
  match ds with
  | [] => 0
  | d :: ds' => (if cutoff <=? instant d then 1 else 0) + recent_since cutoff ds'
  end.

Section Dates.

Variable fromisoformat : string -> option datetime.

(** The [pushed_at] and [updated_at] values that parse, in record order. *)
Definition pushed_dates (repos : list repo) : list datetime :=
  omap (fun r => iso_to_dt fromisoformat (pushed_at r)) repos.

Definition updated_dates (repos : list repo) : list datetime :=
  omap (fun r => iso_to_dt fromisoformat (updated_at r)) repos.

End Dates.

(** Two summaries that differ at most in [updated_last_90d]. *)
Definition same_but_window (a b : Summary.t) : Prop :=
  Summary.repo_count a = Summary.repo_count b /\
  Summary.total_stars a = Summary.total_stars b /\
  Summary.total_forks a = Summary.total_forks b /\
  Summary.languages a = Summary.languages b /\
  Summary.updated_last_30d a = Summary.updated_last_30d b /\
  Summary.last_pushed_at a = Summary.last_pushed_at b /\
  Summary.last_updated_at a = Summary.last_updated_at b /\
  Summary.monthly_update_counts a = Summary.monthly_update_counts b.

End Recount.

(** ** Further vocabulary: two windows *)

Module Window.
Import Datetime Metrics.

(** Two sets of locals that differ at most in [updated_last_90d]. *)
Definition same_but_window (a b : locals) : Prop :=
  total_stars a = total_stars b /\
  total_forks a = total_forks b /\
  languages a = languages b /\
  last_pushed_at a = last_pushed_at b /\
  last_updated_at a = last_updated_at b /\
  monthly_update_counts a = monthly_update_counts b /\
  updated_last_30d a = updated_last_30d b /\
  clock_reads a = clock_reads b.

Definition alike_but_window (a b : result locals) : Prop :=
  match a, b with
  | Return x, Return y => same_but_window x y
  | Raise e1, Raise e2 => e1 = e2
  | _, _ => False
  end.

End Window.

(** ** The developer list *)

Module Developers.

(** [s.strip(c)] for a one-character set. *)
Fixpoint lstrip_char (c : ascii) (s : string) : string :=
  match s with
  | EmptyString => EmptyString
  | String a s' => if Ascii.eqb a c then lstrip_char c s' else s
  end.

Fixpoint rstrip_char (c : ascii) (s : string) : string :=
  match s with
  | EmptyString => EmptyString
  | String a s' =>
      match rstrip_char c s' with
      | EmptyString => if Ascii.eqb a c then EmptyString else String a EmptyString
      | r => String a r
      end
  end.

Definition strip_char (c : ascii) (s : string) : string :=
  rstrip_char c (lstrip_char c s).

Record Developer : Type := mkDeveloper {
  name : string;
  username : string;
  profile_url : string
}.

(** A row as [csv.DictReader] yields it: [row.get(k)] is [None] for a
    column that the line does not reach.  Text is taken with one
    [ascii] per code point, as for header text. *)
Definition row := gmap string string.

(** [(row.get(k) or "").strip()]. *)
Definition cell (r : row) (k : string) : string :=
  Py.strip (match r !! k with Some v => v | None => EmptyString end).

Definition required : list string := ["name"; "profile_url"; "username"].

(** [sorted(required - set(fieldnames or []))]. *)
Definition missing (fieldnames : option (list string)) : list string :=
  List.filter
    (fun k => negb (existsb (String.eqb k)
                      (match fieldnames with Some l => l | None => [] end)))
    required.

Section Read.

(** [urllib.parse.urlparse], by the two fields read here: the network
    location and the path; [None] when it raises. *)
Variable urlparse : string -> option (string * string).

(** The [try] block: the user name that the profile address gives, if any. *)
Definition derived_username (profile : string) : option string :=
  match urlparse profile with
  | Some (netloc, path) =>
      if Fetch.endswith "github.com" netloc then
        match Py.split "/" (strip_char "/" path) with
        | p :: _ => if Py.truthy p then Some p else None
        | [] => None
        end
      else None
  | None => None
  end.

(** The body of [for row in reader]: the developer a row gives, if any. *)
Definition developer_of (r : row) : option Developer :=
  let name_ := cell r "name" in
  let username_ := cell r "username" in
  let profile := cell r "profile_url" in
  let username_ :=
    if Py.truthy username_ then username_
    else match derived_username profile with
         | Some u => u
         | None => username_
         end in
  if Py.truthy username_
  then Some (mkDeveloper (if Py.truthy name_ then name_ else username_) username_ profile)
  else None.

(** [read_developers_csv], from the field names and the rows of the
    reader on. *)
Definition read_developers_csv (fieldnames : option (list string)) (rows : list row)
    : result (list Developer) :=
  match missing fieldnames with
  | [] => Return (omap developer_of rows)
  | _ :: _ => Raise ValueError
  end.

End Read.

End Developers.

(** ** Further worked inputs *)

Module Sample2.
Import Http.

Definition not_found : reply := HTTPErrorReply 404 [("Content-Type", "application/json")].

(** A connection failure, a body that does not decode, a 503, then a
    good reply. *)
Definition flaky : nat -> string -> reply :=
  scripted [URLErrorReply; Response [] None; Sample.unavailable; Sample.ok].

Definition always_down : nat -> string -> reply := fun _ _ => URLErrorReply.

(** A reset field made of the superscript two. *)
Definition superscript_headers : header_list :=
  [("X-RateLimit-Reset", String "178"%char EmptyString)].

(** The first page of [Sample.two_pages], and nothing behind its link. *)
Definition broken_link : nat -> string -> reply :=
  fun _ u =>
    if String.eqb u Sample.url then Fetch.page_reply Sample.first_page else not_found.


Definition pushed (s : string) : Metrics.repo :=
  Metrics.mkRepo (Some 1) None None (Some s) None.

(** Two pushes at the same instant, written with different offsets, and
    an earlier one. *)
Definition three_pushes : list Metrics.repo :=
  [pushed "2024-01-10T08:30:00Z"; pushed "2024-03-01T12:00:00+02:00";
   pushed "2024-03-01T10:00:00Z"].

(** A stand-in for [urlparse] that knows one address. *)
Definition urlparse_table (s : string) : option (string * string) :=
  if String.eqb s "https://github.com/octocat/"
  then Some ("github.com", "/octocat/") else None.

Definition header : option (list string) := Some ["name"; "username"; "profile_url"].

Definition row_of (n u p : string) : Developers.row :=
  <["name" := n]> (<["username" := u]> (<["profile_url" := p]> ∅)).

Definition rows : list Developers.row :=
  [row_of "Ada" " ada " "https://example.org/ada";
   row_of EmptyString EmptyString "https://github.com/octocat/";
   row_of "Nobody" EmptyString "https://example.org/nobody"].

End Sample2.

(** ** Further vocabulary: the range of dates *)

Module Range.
Import Datetime.

(** A reading on the axis of [wall_micros] that a [datetime] can hold:
    from the first day of year 1 to the last microsecond of year 9999. *)
Definition representable (t : Z) : Prop :=
  micros_per_day <= t < 3652060 * micros_per_day.

(** The clock readings of a run, the 30-day marks taken from them and
    the cutoff of the window are all representable, so that the date
    arithmetic of the fold does not overflow. *)
Definition dates_in_range (now : nat -> Z) (since_days : Z) : Prop :=
  representable (now O - since_days * micros_per_day) /\
  forall k, representable (now k) /\ representable (now k - 30 * micros_per_day).

End Range.

(** * Properties *)

(** ** The request executor *)

Section ExecutorFacts.
Import Http.

Variable server : nat -> string -> reply.
Variable clock : nat -> Z.




Lemma rate_limit_reset_not_403 code hdrs :
  code <> 403 -> rate_limit_reset code hdrs = None.
Proof.
  intros H. unfold rate_limit_reset. destruct (Z.eqb_spec code 403); congruence.
Qed.


(** One pass on a 5xx reply while the budget lasts. *)
Lemma attempts_server_error_retry url retries base todo attempt last w :
  server_error (server (requests w) url) ->
  attempt < retries ->
  attempts server clock url retries base (S todo) attempt last w =
  attempts server clock url retries base todo (attempt + 1)
    (Some (error_of (server (requests w) url)))
    (after_retry url (base * (attempt + 1)) 0 w).
Proof.
  intros (code & hdrs & Hr & Hcode) Hlt.
  cbn [attempts]. unfold bind at 1. unfold urlopen at 1. cbn [requests].
  rewrite Hr. rewrite rate_limit_reset_not_403 by lia.
  replace (500 <=? code) with true by (symmetry; apply Z.leb_le; lia).
  replace (code <? 600) with true by (symmetry; apply Z.ltb_lt; lia).
  replace (attempt <? retries) with true by (symmetry; apply Z.ltb_lt; lia).
  unfold bind, sleep, after_retry. cbn. rewrite <- app_assoc. reflexivity.
Qed.

(** One pass on a 5xx reply with the budget used up: the error leaves. *)
Lemma attempts_server_error_exhausted url retries base todo attempt last w :
  server_error (server (requests w) url) ->
  retries <= attempt ->
  attempts server clock url retries base (S todo) attempt last w =
  (Raise (error_of (server (requests w) url)), after_request url w).
Proof.
  intros (code & hdrs & Hr & Hcode) Hge.
  cbn [attempts]. unfold bind at 1. unfold urlopen at 1. cbn [requests].
  rewrite Hr. rewrite rate_limit_reset_not_403 by lia.
  replace (attempt <? retries) with false by (symmetry; apply Z.ltb_ge; lia).
  rewrite andb_false_r. reflexivity.
Qed.

(** One pass on a 2xx reply with a body that parses. *)
Lemma attempts_success url retries base todo attempt last w hdrs data :
  server (requests w) url = Response hdrs (Some data) ->
  attempts server clock url retries base (S todo) attempt last w =
  (Return (data, dict_of_items hdrs), after_request url w).
Proof.
  intros Hr. cbn [attempts]. unfold bind at 1. unfold urlopen at 1. cbn [requests].
  rewrite Hr. reflexivity.
Qed.

Lemma after_retries_cons url d ds r1 r2 w :
  after_retries url ds r2 (after_retry url d r1 w) =
  after_retries url (d :: ds) (r2 + r1) w.
Proof.
  unfold after_retries, after_retry. cbn [requests clock_reads trace length flat_map].
  f_equal; [lia | lia | rewrite <- app_assoc; reflexivity].
Qed.

Lemma after_retries_nil url w : after_retries url [] 0 w = w.
Proof. destruct w. unfold after_retries. cbn. rewrite app_nil_r. reflexivity. Qed.

Lemma last_error_step url d r w n last :
  last_error server url (after_retry url d r w) n
    (Some (error_of (server (requests w) url))) =
  last_error server url w (S n) last.
Proof.
  destruct n as [|k]; cbn; [reflexivity|].
  do 3 f_equal. lia.
Qed.


(** [n] 5xx replies in a row within the budget: [n] passes with the
    linear backoff. *)
Lemma attempts_server_error_run url retries base n :
  forall todo attempt last w,
  (forall i, (i < n)%nat -> server_error (server (i + requests w) url)) ->
  attempt + Z.of_nat n <= retries ->
  attempts server clock url retries base (n + todo) attempt last w =
  attempts server clock url retries base todo (attempt + Z.of_nat n)
    (last_error server url w n last)
    (after_retries url
       (map (fun k => base * (attempt + Z.of_nat k)) (seq 1 n)) 0 w).
Proof.
  induction n as [|n IH]; intros todo attempt last w H Hle.
  - cbn [seq map Nat.add last_error]. rewrite after_retries_nil. f_equal. lia.
  - cbn [Nat.add].
    rewrite (attempts_server_error_retry url retries base _ attempt last w)
      by (try apply (H O); lia).
    rewrite IH.
    + rewrite after_retries_cons, (last_error_step _ _ _ _ _ last). cbn [seq map].
      f_equal; [lia | ].
      f_equal. f_equal.
      rewrite <- (seq_shift n 1), map_map. apply map_ext. intros k. f_equal. lia.
    + intros i Hi. cbn [after_retry requests].
      replace (i + S (requests w))%nat with (S i + requests w)%nat by lia.
      apply H. lia.
    + lia.
Qed.

Lemma length_backoff_delays base n : length (backoff_delays base n) = n.
Proof. unfold backoff_delays. rewrite length_map, length_seq. reflexivity. Qed.

Lemma backoff_from_zero base n :
  map (fun k => base * (0 + Z.of_nat k)) (seq 1 n) = backoff_delays base n.
Proof. unfold backoff_delays. apply map_ext. intros k. f_equal. Qed.

Lemma http_get_json_unfold url retries base w todo :
  Z.to_nat (retries + 1) = todo ->
  http_get_json server clock url retries base w =
  attempts server clock url retries base todo 0 None w.
Proof. intros <-. reflexivity. Qed.

Lemma dict_of_items_lookup hdrs name : forall d : gmap string string,
  fold_left (fun d kv => <[kv.1 := kv.2]> d) hdrs d !! name =
  match last_field name hdrs with
  | Some v => Some v
  | None => d !! name
  end.
Proof.
  induction hdrs as [|[k v] rest IH]; intros d; cbn [fold_left last_field]; [reflexivity|].
  rewrite IH. destruct (last_field name rest); [reflexivity|].
  cbn [fst snd]. destruct (String.eqb_spec k name) as [->|Hne].
  - apply lookup_insert_eq.
  - apply lookup_insert_ne. exact Hne.
Qed.

Lemma http_get_json_success url retries base w hdrs data :
  0 <= retries ->
  server (requests w) url = Response hdrs (Some data) ->
  http_get_json server clock url retries base w =
    (Return (data, dict_of_items hdrs), after_request url w).
Proof.
  intros Hret Hok.
  rewrite (http_get_json_unfold url retries base w (S (Z.to_nat retries))) by lia.
  apply attempts_success. exact Hok.
Qed.

(** C3. For replies with a 5xx status the executor retries with the
    linear backoff [base * 1, base * 2, ...]: after [n <= retries] such
    replies a 2xx reply is returned with its body; after [retries + 1]
    of them the error of the last reply is raised, [retries + 1]
    requests having been sent. *)
Theorem C3_server_error_retry_budget url retries base w n :
  0 <= retries ->
  (forall i, (i < n)%nat -> server_error (server (i + requests w)%nat url)) ->
  (Z.of_nat n <= retries ->
   forall hdrs data,
     server (n + requests w)%nat url = Response hdrs (Some data) ->
     http_get_json server clock url retries base w =
     (Return (data, dict_of_items hdrs),
      after_request url (after_retries url (backoff_delays base n) 0 w)))
  /\
  (Z.of_nat n = retries + 1 ->
   http_get_json server clock url retries base w =
   (Raise (error_of (server (Z.to_nat retries + requests w)%nat url)),
    after_request url
      (after_retries url (backoff_delays base (Z.to_nat retries)) 0 w))).
Proof.
  intros Hret Herr. split.
  - intros Hn hdrs data Hok.
    rewrite (http_get_json_unfold url retries base w (n + S (Z.to_nat retries - n))) by lia.
    rewrite attempts_server_error_run by (auto; lia).
    rewrite backoff_from_zero.
    apply attempts_success.
    unfold after_retries. cbn [requests]. rewrite length_backoff_delays. exact Hok.
  - intros Hn.
    rewrite (http_get_json_unfold url retries base w (Z.to_nat retries + 1)) by lia.
    rewrite attempts_server_error_run by (try (intros; apply Herr); lia).
    rewrite backoff_from_zero.
    rewrite attempts_server_error_exhausted.
    + unfold after_retries at 1. cbn [requests]. rewrite length_backoff_delays. reflexivity.
    + unfold after_retries. cbn [requests]. rewrite length_backoff_delays.
      apply Herr. lia.
    + lia.
Qed.


(** C8, as the code has it. A 2xx reply with a body that parses is
    returned at once, the body together with a plain dictionary of the
    header fields: a name is found only in the spelling in which it was
    received, with the value of the last field of that spelling. *)
Theorem C8_success_returns_plain_header_dict url retries base w hdrs data :
  0 <= retries ->
  server (requests w) url = Response hdrs (Some data) ->
  http_get_json server clock url retries base w =
    (Return (data, dict_of_items hdrs), after_request url w)
  /\ forall name, dict_of_items hdrs !! name = last_field name hdrs.
Proof.
  intros Hret Hok. split.
  - apply http_get_json_success; assumption.
  - intros name. unfold dict_of_items. rewrite dict_of_items_lookup.
    destruct (last_field name hdrs); [reflexivity | apply lookup_empty].
Qed.

End ExecutorFacts.

(** ** The link field *)

Section LinkFacts.
Import Fetch.

Lemma append_assoc (a b c : string) : (a ++ b) ++ c = a ++ (b ++ c).
Proof. induction a as [|x a IH]; cbn; [reflexivity | rewrite IH; reflexivity]. Qed.




(** *** [split] *)





(** *** [strip] *)





(** *** The test [rel="next" in p] *)

Lemma avoids_cons c a s :
  avoids c (String a s) = negb (Ascii.eqb a c) && avoids c s.
Proof. reflexivity. Qed.

(** A pattern and a text that both have their first double quote after
    a quote-free prefix match only with the prefixes equal. *)
Lemma startswith_cons a p b s :
  Py.startswith (String a p) (String b s) = Ascii.eqb a b && Py.startswith p s.
Proof. reflexivity. Qed.


Lemma contains_cons p c s :
  Py.contains p (String c s) = Py.startswith p (String c s) || Py.contains p s.
Proof. reflexivity. Qed.





(** *** [find] and the slice *)








End LinkFacts.

(** ** The paginated fetcher *)

Section FetcherFacts.
Import Http Fetch.

Variable server : nat -> string -> reply.
Variable clock : nat -> Z.

Lemma after_pages_nil w : after_pages [] w = w.
Proof. destruct w. unfold after_pages. cbn. rewrite app_nil_r. reflexivity. Qed.

Lemma after_pages_cons u urls w :
  after_pages urls (after_request u w) = after_pages (u :: urls) w.
Proof.
  unfold after_pages, after_request. cbn [requests clock_reads trace length map].
  f_equal; [lia | rewrite <- app_assoc; reflexivity].
Qed.

Lemma truthy_first_page_url username : Py.truthy (first_page_url username) = true.
Proof. reflexivity. Qed.

(** One iteration on an array page. *)
Lemma pages_array fuel u w hdrs items :
  Py.truthy u = true ->
  server (requests w) u = Response hdrs (Some (JArr items)) ->
  pages server clock (S fuel) (Some u) w =
  let r := pages server clock fuel (next_url (dict_of_items hdrs)) (after_request u w) in
  mkRun (items ++ yielded r) (outcome r) (final r).
Proof.
  intros Hu Hok. cbn [pages]. rewrite Hu. cbn [negb].
  rewrite (http_get_json_success server clock u 3 1 w hdrs (JArr items)) by (lia || exact Hok).
  reflexivity.
Qed.




Lemma pages_loop hdrs items u :
  (forall n v, server n v = Response hdrs (Some (JArr items))) ->
  next_url (dict_of_items hdrs) = Some u ->
  Py.truthy u = true ->
  forall fuel v w,
    Py.truthy v = true ->
    pages server clock fuel (Some v) w =
    mkRun (concat (repeat items fuel)) Unfinished
          (after_pages (looped_addresses v u fuel) w).
Proof.
  intros Hserver Hnext Hu. induction fuel as [|fuel IH]; intros v w Hv.
  - cbn [pages]. rewrite Hv. cbn. rewrite after_pages_nil. reflexivity.
  - rewrite (pages_array _ _ _ _ _ Hv (Hserver _ _)). rewrite Hnext.
    rewrite (IH u _ Hu). cbn [yielded outcome final repeat concat].
    rewrite after_pages_cons. f_equal. f_equal.
    destruct fuel; reflexivity.
Qed.

(** C2, as the code has it. The fetcher keeps no record of the
    addresses it has requested: when every page is an array that names
    the same next page [u], each iteration requests [u] again, and the
    run neither fails nor finishes within any number of iterations. *)
Theorem C2_repeating_cursor_is_requested_again hdrs items u :
  (forall n v, server n v = Response hdrs (Some (JArr items))) ->
  next_url (dict_of_items hdrs) = Some u ->
  Py.truthy u = true ->
  forall fuel username w,
    let r := paginate_repos server clock fuel username w in
    outcome r = Unfinished /\
    yielded r = concat (repeat items fuel) /\
    final r = after_pages (looped_addresses (first_page_url username) u fuel) w.
Proof.
  intros Hserver Hnext Hu fuel username w. unfold paginate_repos.
  rewrite (pages_loop hdrs items u Hserver Hnext Hu fuel _ w (truthy_first_page_url username)).
  repeat split.
Qed.


End FetcherFacts.

(** ** Stable sorting *)

Section StableSortFacts.
Import Metrics.

Context {A : Type} (before : A -> A -> bool).

Lemma place_permutation x l : Permutation (place before x l) (x :: l).
Proof.
  induction l as [|y l IH]; cbn [place]; [reflexivity|].
  destruct (before y x); [|reflexivity].
  rewrite IH. apply perm_swap.
Qed.

Lemma stable_sort_permutation l : Permutation (stable_sort before l) l.
Proof.
  induction l as [|x l IH]; cbn; [reflexivity|].
  fold (stable_sort before l). rewrite place_permutation, IH. reflexivity.
Qed.

(** Items that are tied under [before] keep their relative order. *)
Lemma place_filter (p : A -> bool) x l :
  (forall y, p x = true -> p y = true -> before y x = false) ->
  List.filter p (place before x l) = List.filter p (x :: l).
Proof.
  intros Htied. induction l as [|y l IH]; cbn [place]; [reflexivity|].
  destruct (before y x) eqn:Hb; [|reflexivity].
  cbn [List.filter] in *. rewrite IH. pose proof (Htied y) as Hxy.
  destruct (p x), (p y); try reflexivity.
  rewrite Hxy in Hb by reflexivity. discriminate.
Qed.

Lemma stable_sort_filter (p : A -> bool) l :
  (forall x y, p x = true -> p y = true -> before y x = false) ->
  List.filter p (stable_sort before l) = List.filter p l.
Proof.
  intros Htied. induction l as [|x l IH]; cbn; [reflexivity|].
  fold (stable_sort before l).
  rewrite place_filter by (intros y; apply Htied).
  cbn [List.filter]. rewrite IH. reflexivity.
Qed.

Hypothesis before_asym : forall x y, before x y = true -> before y x = false.

Lemma place_sorted x l : Sorted (in_order before) l -> Sorted (in_order before) (place before x l).
Proof.
  induction l as [|y l IH]; intros Hl; cbn [place].
  - repeat constructor.
  - destruct (before y x) eqn:Hb.
    + inversion Hl as [|? ? Hl' Hhd]; subst. constructor; [auto|].
      destruct l as [|z l]; cbn [place].
      * constructor. apply before_asym. exact Hb.
      * destruct (before z x); constructor.
        -- inversion Hhd; assumption.
        -- apply before_asym. exact Hb.
    + constructor; [exact Hl|]. constructor. exact Hb.
Qed.

Lemma stable_sort_sorted l : Sorted (in_order before) (stable_sort before l).
Proof.
  induction l as [|x l IH]; cbn; [constructor|].
  apply place_sorted. exact IH.
Qed.

End StableSortFacts.

(** ** Counters *)

Section CounterFacts.
Import Metrics.

Lemma mem_In k l : mem k l = true <-> In k l.
Proof.
  unfold mem. rewrite existsb_exists. split.
  - intros (x & Hin & Heq). apply String.eqb_eq in Heq. subst. exact Hin.
  - intros Hin. exists k. split; [exact Hin | apply String.eqb_refl].
Qed.

Lemma count_get k c : count k c = match get k c with Some n => n | None => 0 end.
Proof.
  induction c as [|[k' n] c IH]; cbn; [reflexivity|].
  destruct (String.eqb k' k); [reflexivity | exact IH].
Qed.

Lemma get_incr k k' c :
  get k (incr k' c) =
  if String.eqb k' k
  then Some (match get k c with Some n => n + 1 | None => 1 end)
  else get k c.
Proof.
  induction c as [|[k0 n] c IH]; cbn [incr get].
  - destruct (String.eqb k' k); reflexivity.
  - destruct (String.eqb_spec k0 k') as [->|Hne]; cbn [get].
    + destruct (String.eqb k' k); reflexivity.
    + destruct (String.eqb_spec k0 k) as [->|Hne'].
      * destruct (String.eqb_spec k' k) as [->|_]; [congruence | reflexivity].
      * exact IH.
Qed.

Lemma get_None_keys k c : get k c = None <-> ~ In k (keys c).
Proof.
  induction c as [|[k' n] c IH]; cbn; [tauto|].
  destruct (String.eqb_spec k' k) as [->|Hne].
  - split; [discriminate | intros H; exfalso; apply H; left; reflexivity].
  - rewrite IH. tauto.
Qed.

Lemma keys_incr k c :
  keys (incr k c) = if mem k (keys c) then keys c else (keys c ++ [k])%list.
Proof.
  induction c as [|[k' n] c IH]; cbn [incr keys map mem existsb fst]; [reflexivity|].
  rewrite (String.eqb_sym k k').
  destruct (String.eqb k' k); cbn [map fst orb]; [reflexivity|].
  fold (keys (incr k c)) (keys c) (mem k (keys c)). rewrite IH.
  destruct (mem k (keys c)); reflexivity.
Qed.

Lemma get_tally k ks : forall c,
  get k (tally ks c) =
  match get k c with
  | Some n => Some (n + occurrences k ks)
  | None => entry (occurrences k ks)
  end.
Proof.
  unfold occurrences.
  induction ks as [|x ks IH]; intros c; cbn [tally fold_left List.filter].
  - destruct (get k c); [f_equal; cbn; lia | reflexivity].
  - fold (tally ks (incr x c)). rewrite IH, get_incr.
    destruct (String.eqb x k); cbn [length];
      destruct (get k c); unfold entry; cbn [length].
    + f_equal. lia.
    + destruct (Z.eqb_spec (Z.of_nat (S (length (List.filter (fun x0 => String.eqb x0 k) ks)))) 0);
        [lia | f_equal; lia].
    + reflexivity.
    + reflexivity.
Qed.

Lemma filter_filter_andb {B} (p q : B -> bool) l :
  List.filter p (List.filter q l) = List.filter (fun x => q x && p x) l.
Proof.
  induction l as [|x l IH]; cbn; [reflexivity|].
  destruct (q x); cbn; [destruct (p x)|]; rewrite IH; reflexivity.
Qed.

(** The keys of a tally: those of the counter it started from, then the
    new ones in the order in which they first occur. *)
Lemma keys_tally ks : forall c,
  keys (tally ks c) =
  (keys c ++ List.filter (fun y => negb (mem y (keys c))) (first_seen ks))%list.
Proof.
  induction ks as [|x ks IH]; intros c; cbn [tally fold_left first_seen List.filter].
  - rewrite app_nil_r. reflexivity.
  - fold (tally ks (incr x c)). rewrite IH, keys_incr.
    rewrite filter_filter_andb.
    destruct (mem x (keys c)) eqn:Hx; cbn [negb].
    + f_equal. apply filter_ext_in. intros y _.
      destruct (String.eqb_spec y x) as [->|Hne]; cbn [negb andb].
      * rewrite Hx. reflexivity.
      * reflexivity.
    + rewrite <- app_assoc. cbn [app]. do 2 f_equal.
      apply filter_ext_in. intros y _. unfold mem. rewrite existsb_app. cbn [existsb].
      rewrite orb_false_r, negb_orb, andb_comm. reflexivity.
Qed.

Lemma keys_tally_empty ks : keys (tally ks []) = first_seen ks.
Proof.
  rewrite keys_tally. cbn [keys map app].
  generalize (first_seen ks) as l.
  induction l as [|y l IH]; [reflexivity|].
  change (y :: List.filter (fun y => negb (mem y [])) l = y :: l).
  rewrite IH. reflexivity.
Qed.

Lemma NoDup_keys_incr k c : NoDup (keys c) -> NoDup (keys (incr k c)).
Proof.
  intros H. rewrite keys_incr. destruct (mem k (keys c)) eqn:Hk; [exact H|].
  apply NoDup_app. split; [exact H|]. split.
  - intros y Hy Hy'. apply list_elem_of_In in Hy. apply list_elem_of_In in Hy'.
    destruct Hy' as [->|[]]. apply mem_In in Hy. congruence.
  - apply NoDup_singleton.
Qed.

Lemma NoDup_keys_tally ks : forall c, NoDup (keys c) -> NoDup (keys (tally ks c)).
Proof.
  induction ks as [|x ks IH]; intros c H; cbn [tally fold_left]; [exact H|].
  apply IH, NoDup_keys_incr, H.
Qed.

Lemma get_In k v c : NoDup (keys c) -> In (k, v) c -> get k c = Some v.
Proof.
  induction c as [|[k' n] c IH]; cbn; [tauto|].
  intros Hnd [Heq | Hin].
  - injection Heq as -> ->. rewrite String.eqb_refl. reflexivity.
  - inversion Hnd as [|? ? Hnot Hnd']; subst.
    destruct (String.eqb_spec k' k) as [->|_]; [|auto].
    exfalso. apply Hnot. apply list_elem_of_In. apply (in_map fst) in Hin. exact Hin.
Qed.

Lemma get_Some_In k v c : get k c = Some v -> In (k, v) c.
Proof.
  induction c as [|[k' n] c IH]; cbn; [discriminate|].
  destruct (String.eqb_spec k' k) as [->|_].
  - intros [= ->]. left. reflexivity.
  - intros H. right. auto.
Qed.

(** A rearrangement of a counter with distinct keys has the same entries. *)
Lemma get_permutation k c c' :
  NoDup (keys c) -> Permutation c' c -> get k c' = get k c.
Proof.
  intros Hnd Hp.
  assert (Hnd' : NoDup (keys c')) by (unfold keys; rewrite Hp; exact Hnd).
  destruct (get k c) as [v|] eqn:Hc.
  - apply get_In; [exact Hnd'|]. eapply Permutation_in; [apply Permutation_sym, Hp|].
    apply get_Some_In. exact Hc.
  - apply get_None_keys. rewrite get_None_keys in Hc. intros Hin. apply Hc.
    unfold keys in *. eapply Permutation_in; [apply Permutation_map, Hp | exact Hin].
Qed.

Lemma keys_filter (f : string * Z -> bool) (g : string -> bool) c :
  (forall e, In e c -> f e = g e.1) ->
  keys (List.filter f c) = List.filter g (keys c).
Proof.
  induction c as [|e c IH]; intros H; cbn [List.filter keys map]; [reflexivity|].
  rewrite <- (H e (or_introl eq_refl)).
  fold (keys c). rewrite <- IH by (intros; apply H; right; assumption).
  destruct (f e); reflexivity.
Qed.

Lemma In_first_seen k l : In k (first_seen l) -> In k l.
Proof.
  induction l as [|x l IH]; cbn; [tauto|].
  intros [->|H]; [left; reflexivity|].
  right. apply IH. apply filter_In in H. tauto.
Qed.

Lemma occurrences_positive_In k ks : 0 < occurrences k ks -> In k ks.
Proof.
  unfold occurrences. induction ks as [|x ks IH]; cbn; [lia|].
  destruct (String.eqb_spec x k) as [->|_]; [left; reflexivity | right; auto].
Qed.

Lemma entry_Some n v : entry n = Some v -> v = n /\ n <> 0.
Proof. unfold entry. destruct (Z.eqb_spec n 0); [discriminate | intros [= <-]; auto]. Qed.

(** *** The order on strings *)

Lemma str_lt_iff a b : Py.str_lt a b = true <-> String_as_OT.lt a b.
Proof.
  unfold Py.str_lt, String_as_OT.lt.
  destruct (String_as_OT.compare a b); split; congruence.
Qed.

Lemma str_lt_irrefl a : Py.str_lt a a = false.
Proof.
  destruct (Py.str_lt a a) eqn:E; [|reflexivity].
  apply str_lt_iff in E. exfalso. exact (StrictOrder_Irreflexive a E).
Qed.

Lemma str_lt_trans a b c :
  Py.str_lt a b = true -> Py.str_lt b c = true -> Py.str_lt a c = true.
Proof.
  rewrite !str_lt_iff. apply (@StrictOrder_Transitive _ _ String_as_OT.lt_strorder).
Qed.

Lemma str_lt_asym a b : Py.str_lt a b = true -> Py.str_lt b a = false.
Proof.
  intros H. destruct (Py.str_lt b a) eqn:E; [|reflexivity].
  rewrite <- (str_lt_irrefl a). symmetry. eapply str_lt_trans; eassumption.
Qed.

Lemma str_lt_total a b : Py.str_lt a b = false -> a <> b -> Py.str_lt b a = true.
Proof.
  intros H Hne. apply str_lt_iff.
  destruct (String_as_OT.compare_spec a b) as [Heq|Hlt|Hgt].
  - contradiction.
  - apply str_lt_iff in Hlt. congruence.
  - exact Hgt.
Qed.

Lemma item_lt_asym x y : item_lt x y = true -> item_lt y x = false.
Proof.
  unfold item_lt. rewrite orb_true_iff, orb_false_iff, andb_true_iff.
  intros [Hlt | [Heq Hn]].
  - split; [apply str_lt_asym; exact Hlt|].
    destruct (String.eqb_spec y.1 x.1) as [E|_]; [|reflexivity].
    rewrite E, str_lt_irrefl in Hlt. discriminate.
  - apply String.eqb_eq in Heq. rewrite Heq, str_lt_irrefl, String.eqb_refl.
    split; [reflexivity|]. cbn. apply Z.ltb_ge. apply Z.ltb_lt in Hn. lia.
Qed.

Lemma larger_count_asym x y : larger_count x y = true -> larger_count y x = false.
Proof. unfold larger_count. rewrite Z.ltb_lt, Z.ltb_ge. lia. Qed.

(** *** Sorted tables *)

Lemma Sorted_keys_impl (R R' : string * Z -> string * Z -> Prop) c :
  (forall a b, R a b -> a.1 <> b.1 -> R' a b) ->
  NoDup (keys c) -> Sorted R c -> Sorted R' c.
Proof.
  intros Himpl. induction c as [|a c IH]; intros Hnd Hs; [constructor|].
  apply NoDup_cons in Hnd. destruct Hnd as [Hnot Hnd].
  inversion Hs as [|? ? Hs' Hhd]; subst. constructor; [auto|].
  destruct Hhd as [|b c Hab]; constructor.
  apply Himpl; [exact Hab|]. intros E. apply Hnot. rewrite E. left.
Qed.

Lemma most_common_sorted c :
  StronglySorted (fun a b => b.2 <= a.2) (most_common c).
Proof.
  apply Sorted_StronglySorted; [intros x y z; lia|].
  pose proof (stable_sort_sorted larger_count larger_count_asym c) as H.
  unfold most_common. induction H as [|a l _ IH Hhd]; constructor; [exact IH|].
  destruct Hhd as [|b l Hab]; constructor.
  unfold in_order, larger_count in Hab. apply Z.ltb_ge in Hab. exact Hab.
Qed.

Lemma sorted_items_sorted c :
  NoDup (keys c) ->
  StronglySorted (fun a b => Py.str_lt a.1 b.1 = true) (sorted_items c).
Proof.
  intros Hnd. apply Sorted_StronglySorted; [intros x y z; apply str_lt_trans|].
  apply (Sorted_keys_impl (in_order item_lt)).
  - intros a b Hab Hne. unfold in_order, item_lt in Hab.
    apply orb_false_iff in Hab. apply str_lt_total; [tauto | congruence].
  - unfold keys, sorted_items. rewrite stable_sort_permutation. exact Hnd.
  - apply stable_sort_sorted, item_lt_asym.
Qed.

Lemma get_most_common k c : NoDup (keys c) -> get k (most_common c) = get k c.
Proof. intros H. apply get_permutation; [exact H | apply stable_sort_permutation]. Qed.

Lemma get_sorted_items k c : NoDup (keys c) -> get k (sorted_items c) = get k c.
Proof. intros H. apply get_permutation; [exact H | apply stable_sort_permutation]. Qed.

(** Entries of equal count stay in the order of the counter. *)
Lemma most_common_ties n c :
  List.filter (fun e => e.2 =? n) (most_common c) = List.filter (fun e => e.2 =? n) c.
Proof.
  apply stable_sort_filter. intros x y Hx Hy.
  apply Z.eqb_eq in Hx, Hy. unfold larger_count. apply Z.ltb_ge. lia.
Qed.

End CounterFacts.

(** ** Date arithmetic *)

Section DateFacts.
Import Datetime.

Lemma minus_days_Return t n c :
  minus_days t n = Return c -> c = t - n * micros_per_day.
Proof.
  unfold minus_days. destruct (_ && _); [|discriminate]. intros [= <-]. reflexivity.
Qed.

Lemma minus_days_Raise t n e : minus_days t n = Raise e -> e = OverflowError.
Proof.
  unfold minus_days. destruct (_ && _); [discriminate|]. intros [= <-]. reflexivity.
Qed.

Lemma in_range_representable t : in_range t = true <-> Range.representable t.
Proof.
  unfold in_range, Range.representable.
  rewrite andb_true_iff, Z.leb_le, Z.ltb_lt. reflexivity.
Qed.

(** Between two instants that a [datetime] holds there are fewer days
    than a [timedelta] holds. *)
Lemma minus_days_representable t n :
  Range.representable t -> Range.representable (t - n * micros_per_day) ->
  minus_days t n = Return (t - n * micros_per_day).
Proof.
  intros Ht Hc. unfold minus_days.
  assert (Hn : (Z.abs n <=? 999999999) = true).
  { apply Z.leb_le. unfold Range.representable, micros_per_day, micros_per_second in *. lia. }
  rewrite Hn. apply in_range_representable in Hc. rewrite Hc. reflexivity.
Qed.

Lemma minus_days_not_representable t n :
  ~ Range.representable (t - n * micros_per_day) -> minus_days t n = Raise OverflowError.
Proof.
  intros Hc. unfold minus_days.
  destruct (in_range (t - n * micros_per_day)) eqn:E.
  - apply in_range_representable in E. contradiction.
  - rewrite andb_false_r. reflexivity.
Qed.

Lemma dates_in_range_cutoff now since_days :
  Range.dates_in_range now since_days ->
  minus_days (now O) since_days = Return (now O - since_days * micros_per_day).
Proof.
  intros [Hc Hk]. apply minus_days_representable; [apply (Hk O) | exact Hc].
Qed.

Lemma dates_in_range_mark now since_days k :
  Range.dates_in_range now since_days ->
  minus_days (now k) 30 = Return (now k - 30 * micros_per_day).
Proof.
  intros [_ Hk]. apply minus_days_representable; apply (Hk k).
Qed.

End DateFacts.

(** ** The metrics fold *)

Section FoldFacts.
Import Datetime Metrics.

Variable fromisoformat : string -> option datetime.
Variable now : nat -> Z.

#[local] Abbreviation iso_to_dt := (iso_to_dt fromisoformat).
#[local] Abbreviation fold_repo := (fold_repo fromisoformat now).
#[local] Abbreviation fold_repos := (fold_repos fromisoformat now).
#[local] Abbreviation analyze_repos := (analyze_repos fromisoformat now).

(** What one successful pass through the loop body does to the locals. *)
Lemma fold_repo_Return cutoff st r st' :
  fold_repo cutoff st r = Return st' ->
  total_stars st' = total_stars st + int_or_0 (stargazers_count r) /\
  total_forks st' = total_forks st + int_or_0 (forks_count r) /\
  languages st' = tally (option_list (counted_language r)) (languages st) /\
  monthly_update_counts st' =
    tally (option_list (counted_month fromisoformat r)) (monthly_update_counts st) /\
  most_recent (iso_to_dt (pushed_at r)) (last_pushed_at st) = Return (last_pushed_at st') /\
  most_recent (iso_to_dt (updated_at r)) (last_updated_at st) = Return (last_updated_at st') /\
  updated_last_30d st <= updated_last_30d st' /\
  updated_last_90d st <= updated_last_90d st'.
Proof.
  unfold fold_repo, counted_month, counted_language.
  destruct (most_recent (iso_to_dt (pushed_at r)) (last_pushed_at st)) as [lp|]; [|discriminate].
  destruct (most_recent (iso_to_dt (updated_at r)) (last_updated_at st)) as [lu|]; [|discriminate].
  assert (Hlang :
    match language r with
    | Some lang => if Py.truthy lang then incr lang (languages st) else languages st
    | None => languages st
    end =
    tally (option_list match language r with
                       | Some lang => if Py.truthy lang then Some lang else None
                       | None => None
                       end) (languages st)).
  { destruct (language r) as [lang|]; [destruct (Py.truthy lang)|]; reflexivity. }
  destruct (iso_to_dt (updated_at r)) as [u|].
  - destruct (minus_days _ _) as [mark|]; [|discriminate].
    destruct (not_before u mark) as [in30|]; [|discriminate].
    destruct (not_before u cutoff) as [in90|]; [|discriminate].
    intros [= <-]. cbn. rewrite Hlang.
    repeat split; try reflexivity; destruct in30, in90; lia.
  - intros [= <-]. cbn. rewrite Hlang. repeat split; try reflexivity; lia.
Qed.

Lemma fold_repos_app cutoff rs1 : forall st rs2,
  fold_repos cutoff st (rs1 ++ rs2) =
  match fold_repos cutoff st rs1 with
  | Return st1 => fold_repos cutoff st1 rs2
  | Raise e => Raise e
  end.
Proof.
  induction rs1 as [|r rs1 IH]; intros st rs2; cbn; [reflexivity|].
  destruct (fold_repo cutoff st r); [apply IH | reflexivity].
Qed.

Lemma tally_app ks1 ks2 c : tally (ks1 ++ ks2) c = tally ks2 (tally ks1 c).
Proof. unfold tally. apply fold_left_app. Qed.

(** The two tables after the loop: a tally of what each record counts for. *)
Lemma fold_repos_tables cutoff rs : forall st st',
  fold_repos cutoff st rs = Return st' ->
  languages st' = tally (omap counted_language rs) (languages st) /\
  monthly_update_counts st' =
    tally (omap (counted_month fromisoformat) rs) (monthly_update_counts st).
Proof.
  induction rs as [|r rs IH]; intros st st' H; cbn in H.
  - injection H as <-. split; reflexivity.
  - destruct (fold_repo cutoff st r) as [st1|] eqn:Hstep; [|discriminate].
    destruct (fold_repo_Return _ _ _ _ Hstep) as (_ & _ & Hl & Hm & _).
    destruct (IH _ _ H) as [Hl' Hm']. rewrite Hl', Hm', Hl, Hm.
    cbn [omap list_omap].
    split; [destruct (counted_language r) | destruct (counted_month fromisoformat r)];
      reflexivity.
Qed.

(** *** Growth *)

Lemma count_incr k k' c :
  count k (incr k' c) = count k c + (if String.eqb k' k then 1 else 0).
Proof.
  rewrite !count_get, get_incr.
  destruct (String.eqb k' k), (get k c); lia.
Qed.

Lemma count_tally_le k ks : forall c, count k c <= count k (tally ks c).
Proof.
  induction ks as [|x ks IH]; intros c; cbn [tally fold_left]; [lia|].
  fold (tally ks (incr x c)). specialize (IH (incr x c)).
  rewrite count_incr in IH. destruct (String.eqb x k); lia.
Qed.

Lemma most_recent_advanced t last new :
  most_recent t last = Return new -> advanced last new.
Proof.
  unfold most_recent, advanced.
  destruct t as [d|], last as [l|]; try (intros [= <-]; auto; fail).
  destruct (compare d l) as [[]|] eqn:Hc; intros [= <-]; auto.
Qed.

Lemma compare_Gt_trans a b c :
  compare a b = Some Gt -> compare b c = Some Gt -> compare a c = Some Gt.
Proof.
  unfold compare.
  destruct (utcoffset a), (utcoffset b), (utcoffset c); try discriminate;
    intros [= H1] [= H2]; f_equal;
    apply Z.compare_gt_iff in H1; apply Z.compare_gt_iff in H2;
    apply Z.compare_gt_iff; lia.
Qed.

Lemma advanced_refl t : advanced t t.
Proof. destruct t; cbn; auto. Qed.

Lemma advanced_trans a b c : advanced a b -> advanced b c -> advanced a c.
Proof.
  unfold advanced. destruct a as [a|], b as [b|], c as [c|]; try tauto.
  intros [->|H1] [->|H2]; auto. right. eapply compare_Gt_trans; eassumption.
Qed.

Lemma counters_grow_refl st : counters_grow st st.
Proof. unfold counters_grow. repeat split; try lia; apply advanced_refl. Qed.

Lemma counters_grow_trans a b c :
  counters_grow a b -> counters_grow b c -> counters_grow a c.
Proof.
  intros (L1 & M1 & A1 & B1 & P1 & U1) (L2 & M2 & A2 & B2 & P2 & U2).
  repeat split; try lia.
  - intros l. specialize (L1 l). specialize (L2 l). lia.
  - intros ym. specialize (M1 ym). specialize (M2 ym). lia.
  - eapply advanced_trans; eassumption.
  - eapply advanced_trans; eassumption.
Qed.

Lemma fold_repo_grows cutoff st r st' :
  fold_repo cutoff st r = Return st' ->
  counters_grow st st' /\ (counts_not_negative r -> totals_grow st st').
Proof.
  intros H. destruct (fold_repo_Return _ _ _ _ H)
    as (Hs & Hf & Hl & Hm & Hp & Hu & H30 & H90).
  split.
  - repeat split; try assumption.
    + intros l. rewrite Hl. apply count_tally_le.
    + intros ym. rewrite Hm. apply count_tally_le.
    + eapply most_recent_advanced; eassumption.
    + eapply most_recent_advanced; eassumption.
  - intros [Hstars Hforks]. unfold totals_grow. lia.
Qed.

Lemma fold_repos_grows cutoff rs : forall st st',
  fold_repos cutoff st rs = Return st' ->
  counters_grow st st' /\ (Forall counts_not_negative rs -> totals_grow st st').
Proof.
  induction rs as [|r rs IH]; intros st st' H; cbn in H.
  - injection H as <-. split; [apply counters_grow_refl | unfold totals_grow; lia].
  - destruct (fold_repo cutoff st r) as [st1|] eqn:Hstep; [|discriminate].
    destruct (fold_repo_grows _ _ _ _ Hstep) as [G1 T1].
    destruct (IH _ _ H) as [G2 T2]. split.
    + eapply counters_grow_trans; eassumption.
    + intros Hall. inversion Hall as [|? ? Hr Hrs]; subst.
      specialize (T1 Hr). specialize (T2 Hrs). unfold totals_grow in *. lia.
Qed.

(** C4, as the code has it. The summary counts the records it was made
    from; between any two points of the fold the language and month
    counters and the two rolling counters have not decreased and the
    tracked timestamps have not gone back; the two totals have not
    decreased when the records folded in between have star and fork
    counts that are not negative. *)
Theorem C4_fold_invariants done rest since_days m :
  analyze_repos (done ++ rest) since_days = Return m ->
  Summary.repo_count m = Z.of_nat (length (done ++ rest)) /\
  exists st_done st_all,
    let cutoff := now O - since_days * micros_per_day in
    fold_repos cutoff initial done = Return st_done /\
    fold_repos cutoff st_done rest = Return st_all /\
    m = finish (length (done ++ rest)) st_all /\
    counters_grow st_done st_all /\
    (Forall counts_not_negative rest -> totals_grow st_done st_all).
Proof.
  unfold analyze_repos.
  destruct (minus_days _ _) as [cutoff|] eqn:Hcut; [|discriminate].
  apply minus_days_Return in Hcut. subst cutoff. rewrite fold_repos_app.
  destruct (Metrics.fold_repos _ _ _ initial done) as [st_done|] eqn:Hdone; [|discriminate].
  destruct (Metrics.fold_repos _ _ _ st_done rest) as [st_all|] eqn:Hrest; [|discriminate].
  intros [= <-]. split; [reflexivity|].
  exists st_done, st_all. cbn zeta.
  destruct (fold_repos_grows _ _ _ _ Hrest) as [G T].
  split; [reflexivity|]. split; [exact Hrest|]. split; [reflexivity|].
  split; [exact G | exact T].
Qed.

(** *** The tables of the summary *)

Lemma occurrences_language l repos :
  Py.truthy l = true ->
  occurrences l (omap counted_language repos) = language_count l repos.
Proof.
  intros Hl. unfold occurrences, language_count. f_equal.
  induction repos as [|r repos IH]; [reflexivity|].
  cbn [omap list_omap List.filter]. unfold counted_language at 1.
  destruct (language r) as [x|]; [|exact IH].
  destruct (Py.truthy x) eqn:Hx.
  - cbn [List.filter]. destruct (String.eqb x l); cbn [length]; rewrite IH; reflexivity.
  - destruct (String.eqb_spec x l) as [->|_]; [congruence | exact IH].
Qed.

Lemma occurrences_month ym repos :
  occurrences ym (omap (counted_month fromisoformat) repos) =
  month_count fromisoformat ym repos.
Proof.
  unfold occurrences, month_count. f_equal.
  induction repos as [|r repos IH]; [reflexivity|].
  cbn [omap list_omap List.filter]. unfold counted_month at 1.
  destruct (iso_to_dt (updated_at r)) as [d|]; [|exact IH].
  cbn [fmap option_fmap option_map List.filter].
  destruct (String.eqb (strftime_Ym d) ym); cbn [length]; rewrite IH; reflexivity.
Qed.

Lemma truthy_counted_language l repos :
  In l (omap counted_language repos) -> Py.truthy l = true.
Proof.
  induction repos as [|r repos IH]; cbn [omap list_omap]; [intros []|].
  unfold counted_language at 1.
  destruct (language r) as [x|]; [|exact IH].
  destruct (Py.truthy x) eqn:Hx; [|exact IH].
  intros [<-|H]; [exact Hx | exact (IH H)].
Qed.

(** A run that returns has passed the cutoff and the loop. *)
Lemma analyze_repos_fold repos since_days m :
  analyze_repos repos since_days = Return m ->
  exists st,
    fold_repos (now O - since_days * micros_per_day) initial repos = Return st /\
    m = finish (length repos) st.
Proof.
  unfold analyze_repos.
  destruct (minus_days _ _) as [cutoff|] eqn:Hcut; [|discriminate].
  apply minus_days_Return in Hcut. subst cutoff.
  destruct (Metrics.fold_repos _ _ _ initial repos) as [st|]; [|discriminate].
  intros [= <-]. exists st. split; reflexivity.
Qed.

Lemma analyze_repos_Return repos since_days m :
  analyze_repos repos since_days = Return m ->
  Summary.languages m = most_common (tally (omap counted_language repos) []) /\
  Summary.monthly_update_counts m =
    sorted_items (tally (omap (counted_month fromisoformat) repos) []).
Proof.
  unfold analyze_repos.
  destruct (minus_days _ _) as [cutoff|]; [|discriminate].
  destruct (Metrics.fold_repos _ _ _ initial repos) as [st|] eqn:Hfold; [|discriminate].
  intros [= <-]. destruct (fold_repos_tables _ _ _ _ Hfold) as [Hl Hm].
  cbn [finish Summary.languages Summary.monthly_update_counts].
  rewrite Hl, Hm. split; reflexivity.
Qed.

Lemma NoDup_keys_tally_empty ks : NoDup (keys (tally ks [])).
Proof. apply NoDup_keys_tally. constructor. Qed.

(** C6, as the code has it. The language table has one entry for each
    language that occurs in a language field that is neither null nor
    empty, with the number of records that have it; the entries are in
    descending order of count, and those of equal count are in the
    order in which their languages are first seen. *)
Theorem C6_language_table repos since_days m :
  analyze_repos repos since_days = Return m ->
  (forall l, Py.truthy l = true ->
     get l (Summary.languages m) = entry (language_count l repos)) /\
  get EmptyString (Summary.languages m) = None /\
  NoDup (keys (Summary.languages m)) /\
  StronglySorted (fun a b => b.2 <= a.2) (Summary.languages m) /\
  (forall n,
     keys (List.filter (fun e => e.2 =? n) (Summary.languages m)) =
     List.filter (fun l => language_count l repos =? n)
       (first_seen (omap counted_language repos))).
Proof.
  intros H. destruct (analyze_repos_Return _ _ _ H) as [-> _].
  set (ks := omap counted_language repos).
  pose proof (NoDup_keys_tally_empty ks) as Hnd.
  assert (Hget : forall l, get l (most_common (tally ks [])) = entry (occurrences l ks)).
  { intros l. rewrite get_most_common by exact Hnd. apply get_tally. }
  split; [|split; [|split; [|split]]].
  - intros l Hl. rewrite Hget. unfold ks. rewrite occurrences_language by exact Hl.
    reflexivity.
  - rewrite Hget. unfold entry.
    destruct (Z.eqb_spec (occurrences EmptyString ks) 0) as [|Hne]; [reflexivity|].
    assert (Hin : In EmptyString ks)
      by (apply occurrences_positive_In; unfold occurrences in *; lia).
    apply truthy_counted_language in Hin. discriminate.
  - unfold keys, most_common. rewrite stable_sort_permutation. exact Hnd.
  - apply most_common_sorted.
  - intros n. rewrite most_common_ties.
    rewrite (keys_filter _ (fun l => language_count l repos =? n)).
    + rewrite keys_tally_empty. reflexivity.
    + intros [k v] Hin. cbn [fst snd].
      assert (Hk : get k (tally ks []) = Some v) by (apply get_In; assumption).
      rewrite get_tally in Hk. cbn [get] in Hk. apply entry_Some in Hk.
      destruct Hk as [-> Hne].
      rewrite <- occurrences_language; [reflexivity|].
      apply truthy_counted_language with (repos := repos).
      apply occurrences_positive_In. unfold occurrences in *. fold ks. lia.
Qed.

Lemma length_append (a b : string) :
  String.length (a ++ b) = (String.length a + String.length b)%nat.
Proof. induction a as [|c a IH]; cbn; [reflexivity | rewrite IH; reflexivity]. Qed.

Lemma length_zero_padded n : forall z, String.length (Py.zero_padded n z) = n.
Proof.
  induction n as [|n IH]; intros z; cbn [Py.zero_padded]; [reflexivity|].
  rewrite length_append, IH. cbn. lia.
Qed.

(** From the year 1000 on, [%Y] has four digits. *)
Lemma year_text_four_digits y : 1000 <= y -> year_text y = Py.zero_padded 4 y.
Proof.
  intros Hy. unfold year_text.
  destruct (Z.ltb_spec y 10); [lia|].
  destruct (Z.ltb_spec y 100); [lia|].
  destruct (Z.ltb_spec y 1000); [lia|]. reflexivity.
Qed.

Lemma length_year_text y :
  (String.length (year_text y) <= 4)%nat /\
  (y < 1000 -> (String.length (year_text y) < 4)%nat).
Proof.
  unfold year_text.
  destruct (Z.ltb_spec y 10); [rewrite length_zero_padded; lia|].
  destruct (Z.ltb_spec y 100); [rewrite length_zero_padded; lia|].
  destruct (Z.ltb_spec y 1000); rewrite length_zero_padded; lia.
Qed.

Lemma length_strftime_Ym d :
  String.length (strftime_Ym d) = (String.length (year_text (year d)) + 3)%nat.
Proof.
  unfold strftime_Ym. rewrite !length_append, !length_zero_padded. reflexivity.
Qed.

(** C7, as the code has it. A record whose [updated_at] parses adds one
    to the bucket whose key is what [strftime("%Y-%m")] makes of that
    timestamp: the year, a hyphen and the two-digit month.  The year has
    four digits from the year 1000 on, and fewer before, so that the
    key is then shorter than seven characters.  The table of the
    summary gives for each month the number of such records, every key
    of it is the key of a record and has a positive count, its keys are
    seven characters long when the years of the records have four
    digits, and it is in strictly ascending order of key. *)
Theorem C7_month_buckets :
  (forall cutoff st r st' d,
     fold_repo cutoff st r = Return st' ->
     iso_to_dt (updated_at r) = Some d ->
     count (strftime_Ym d) (monthly_update_counts st') =
       count (strftime_Ym d) (monthly_update_counts st) + 1 /\
     (1000 <= year d <= 9999 ->
      strftime_Ym d = Py.zero_padded 4 (year d) ++ "-" ++ Py.zero_padded 2 (month d)) /\
     (year d < 1000 -> (String.length (strftime_Ym d) < 7)%nat))
  /\
  (forall repos since_days m,
     analyze_repos repos since_days = Return m ->
     (forall ym, get ym (Summary.monthly_update_counts m) =
                 entry (month_count fromisoformat ym repos)) /\
     (forall ym n, In (ym, n) (Summary.monthly_update_counts m) ->
                   0 < n /\
                   exists r d, In r repos /\ iso_to_dt (updated_at r) = Some d /\
                               ym = strftime_Ym d) /\
     ((forall r d, In r repos -> iso_to_dt (updated_at r) = Some d ->
                   1000 <= year d <= 9999) ->
      forall ym n, In (ym, n) (Summary.monthly_update_counts m) ->
                   String.length ym = 7%nat) /\
     StronglySorted (fun a b => Py.str_lt a.1 b.1 = true)
       (Summary.monthly_update_counts m)).
Proof.
  split.
  - intros cutoff st r st' d Hstep Hd. split; [|split].
    + destruct (fold_repo_Return _ _ _ _ Hstep) as (_ & _ & _ & Hm & _).
      rewrite Hm. unfold counted_month. rewrite Hd.
      change (tally (option_list (strftime_Ym <$> Some d)) (monthly_update_counts st))
        with (incr (strftime_Ym d) (monthly_update_counts st)).
      rewrite count_incr, String.eqb_refl. reflexivity.
    + intros [Hy _]. unfold strftime_Ym. rewrite year_text_four_digits by exact Hy.
      reflexivity.
    + intros Hy. rewrite length_strftime_Ym.
      pose proof (proj2 (length_year_text (year d)) Hy). lia.
  - intros repos since_days m H. destruct (analyze_repos_Return _ _ _ H) as [_ ->].
    set (ks := omap (counted_month fromisoformat) repos).
    pose proof (NoDup_keys_tally_empty ks) as Hnd.
    assert (Hget : forall ym, get ym (sorted_items (tally ks [])) =
                              entry (month_count fromisoformat ym repos)).
    { intros ym. rewrite get_sorted_items by exact Hnd.
      rewrite get_tally. cbn [get]. unfold ks. rewrite occurrences_month. reflexivity. }
    assert (Hkey : forall ym n, In (ym, n) (sorted_items (tally ks [])) ->
              0 < n /\
              exists r d, In r repos /\ iso_to_dt (updated_at r) = Some d /\
                          ym = strftime_Ym d).
    { intros ym n Hin.
      assert (Hk : get ym (sorted_items (tally ks [])) = Some n).
      { apply get_In; [|exact Hin].
        unfold keys, sorted_items. rewrite stable_sort_permutation. exact Hnd. }
      rewrite Hget in Hk. apply entry_Some in Hk. destruct Hk as [-> Hne].
      rewrite <- occurrences_month in *. fold ks in Hne |- *.
      assert (Hpos : 0 < occurrences ym ks) by (unfold occurrences in *; lia).
      split; [exact Hpos|].
      apply occurrences_positive_In in Hpos. unfold ks in Hpos.
      apply list_elem_of_In, list_elem_of_omap in Hpos.
      destruct Hpos as (r & Hr_in & Hr). unfold counted_month in Hr.
      destruct (iso_to_dt (updated_at r)) as [d|] eqn:Hd; [|discriminate].
      injection Hr as <-. exists r, d.
      split; [apply list_elem_of_In; exact Hr_in | split; [exact Hd | reflexivity]]. }
    split; [exact Hget | split; [exact Hkey | split; [|apply sorted_items_sorted; exact Hnd]]].
    intros Hyears ym n Hin.
    destruct (Hkey ym n Hin) as (_ & r & d & Hr_in & Hd & ->).
    destruct (Hyears r d Hr_in Hd) as [Hy _].
    rewrite length_strftime_Ym, year_text_four_digits, length_zero_padded by exact Hy.
    reflexivity.
Qed.

(** C10, as the code has it. The fold of no records, when the cutoff of
    the window is a date that a [datetime] holds: every count is zero,
    both tables are empty and no timestamp is tracked.  When the cutoff
    is no such date, the fold of any records raises [OverflowError]
    before it reads the first of them. *)
Theorem C10_empty_summary since_days :
  Range.representable (now O) ->
  (Range.representable (now O - since_days * micros_per_day) ->
   analyze_repos [] since_days = Return (Summary.mk 0 0 0 [] 0 0 None None [])) /\
  (~ Range.representable (now O - since_days * micros_per_day) ->
   forall repos, analyze_repos repos since_days = Raise OverflowError).
Proof.
  intros Hnow. split.
  - intros Hcut. unfold analyze_repos.
    rewrite (minus_days_representable _ _ Hnow Hcut). reflexivity.
  - intros Hcut repos. unfold analyze_repos.
    rewrite (minus_days_not_representable _ _ Hcut). reflexivity.
Qed.

End FoldFacts.

(** ** Two runs of the fold *)

Section RerunFacts.
Import Datetime Metrics.

Variable fromisoformat : string -> option datetime.

Lemma fold_repo_alike now1 now2 c1 c2 st1 st2 r :
  (forall k, minus_days (now1 k) 30 = Return (now1 k - 30 * micros_per_day)) ->
  (forall k, minus_days (now2 k) 30 = Return (now2 k - 30 * micros_per_day)) ->
  same_but_activity st1 st2 ->
  alike (fold_repo fromisoformat now1 c1 st1 r) (fold_repo fromisoformat now2 c2 st2 r).
Proof.
  intros H1 H2.
  destruct st1, st2. unfold same_but_activity. cbn.
  intros (-> & -> & -> & -> & -> & -> & ->).
  unfold fold_repo. cbn.
  destruct (most_recent _ last_pushed_at1) as [lp|]; [|reflexivity].
  destruct (most_recent _ last_updated_at1) as [lu|]; [|reflexivity].
  destruct (iso_to_dt fromisoformat (updated_at r)) as [u|].
  - rewrite H1, H2.
    unfold not_before. destruct (utcoffset u); cbn; [|reflexivity].
    repeat split.
  - cbn. repeat split.
Qed.

Lemma fold_repos_alike now1 now2 c1 c2 rs :
  (forall k, minus_days (now1 k) 30 = Return (now1 k - 30 * micros_per_day)) ->
  (forall k, minus_days (now2 k) 30 = Return (now2 k - 30 * micros_per_day)) ->
  forall st1 st2,
  same_but_activity st1 st2 ->
  alike (fold_repos fromisoformat now1 c1 st1 rs) (fold_repos fromisoformat now2 c2 st2 rs).
Proof.
  intros H1 H2.
  induction rs as [|r rs IH]; intros st1 st2 H; cbn [fold_repos]; [exact H|].
  pose proof (fold_repo_alike now1 now2 c1 c2 st1 st2 r H1 H2 H) as Hstep.
  destruct (fold_repo fromisoformat now1 c1 st1 r), (fold_repo fromisoformat now2 c2 st2 r);
    cbn in Hstep; try contradiction; [apply IH; exact Hstep | exact Hstep].
Qed.

Lemma fold_repos_same_clock now1 now2 c rs :
  (forall k, now1 k = now2 k) ->
  forall st, fold_repos fromisoformat now1 c st rs = fold_repos fromisoformat now2 c st rs.
Proof.
  intros Hnow. induction rs as [|r rs IH]; intros st; cbn [fold_repos]; [reflexivity|].
  replace (fold_repo fromisoformat now1 c st r) with (fold_repo fromisoformat now2 c st r)
    by (unfold fold_repo; rewrite Hnow; reflexivity).
  destruct (fold_repo fromisoformat now2 c st r); [apply IH | reflexivity].
Qed.

(** C9, as the code has it. The fold reads the clock.  Two runs over
    the same list whose dates (the clock readings, the thirty-day marks
    and the cutoff of the window) are dates that a [datetime] holds end
    alike, with the same exception or with summaries that agree on
    everything but the two rolling counters; two runs are identical
    when the clock readings of the two are the same. *)
Theorem C9_rerun_agrees_up_to_clock now1 now2 repos since_days :
  (Range.dates_in_range now1 since_days ->
   Range.dates_in_range now2 since_days ->
  match analyze_repos fromisoformat now1 repos since_days,
        analyze_repos fromisoformat now2 repos since_days with
  | Return m1, Return m2 =>
      Summary.repo_count m1 = Summary.repo_count m2 /\
      Summary.total_stars m1 = Summary.total_stars m2 /\
      Summary.total_forks m1 = Summary.total_forks m2 /\
      Summary.languages m1 = Summary.languages m2 /\
      Summary.last_pushed_at m1 = Summary.last_pushed_at m2 /\
      Summary.last_updated_at m1 = Summary.last_updated_at m2 /\
      Summary.monthly_update_counts m1 = Summary.monthly_update_counts m2
  | Raise e1, Raise e2 => e1 = e2
  | _, _ => False
  end)
  /\
  ((forall k, now1 k = now2 k) ->
   analyze_repos fromisoformat now1 repos since_days =
   analyze_repos fromisoformat now2 repos since_days).
Proof.
  split.
  - intros R1 R2. unfold analyze_repos.
    rewrite (dates_in_range_cutoff _ _ R1), (dates_in_range_cutoff _ _ R2).
    pose proof (fold_repos_alike now1 now2
                  (now1 O - since_days * micros_per_day)
                  (now2 O - since_days * micros_per_day) repos
                  (fun k => dates_in_range_mark _ _ k R1)
                  (fun k => dates_in_range_mark _ _ k R2)
                  initial initial) as H.
    destruct (fold_repos fromisoformat now1 _ initial repos) as [a|],
             (fold_repos fromisoformat now2 _ initial repos) as [b|]; cbn in H.
    + destruct H as (Hs & Hf & Hl & Hp & Hu & Hm & _); [repeat split|].
      cbn. rewrite Hs, Hf, Hl, Hp, Hu, Hm. repeat split.
    + apply H. repeat split.
    + apply H. repeat split.
    + apply H. repeat split.
  - intros Hnow. unfold analyze_repos. rewrite (Hnow O).
    destruct (minus_days (now2 O) since_days) as [cutoff|]; [|reflexivity].
    rewrite (fold_repos_same_clock now1 now2 _ repos Hnow). reflexivity.
Qed.

End RerunFacts.

(** ** The executor on the worked inputs *)

Section ExecutorExamples.
Import Http.



Lemma C3_witness :
  http_get_json (scripted [Sample.unavailable; Sample.unavailable;
                           Sample.unavailable; Sample.unavailable])
    Sample.ticking Sample.url 3 1 world0 =
  (Raise (HTTPError 503 []),
   mkWorld 4 0 [EvRequest Sample.url; EvSleep 1; EvRequest Sample.url; EvSleep 2;
                EvRequest Sample.url; EvSleep 3; EvRequest Sample.url])
  /\
  http_get_json (scripted [Sample.unavailable; Sample.unavailable; Sample.ok])
    Sample.ticking Sample.url 3 1 world0 =
  (Return (Sample.page_body, dict_of_items [("Content-Type", "application/json")]),
   mkWorld 3 0 [EvRequest Sample.url; EvSleep 1; EvRequest Sample.url; EvSleep 2;
                EvRequest Sample.url]).
Proof.
  split.
  - refine (proj2 (C3_server_error_retry_budget _ Sample.ticking Sample.url 3 1 world0 4 _ _) eq_refl).
    + lia.
    + intros i Hi. exists 503, []. split; [|lia].
      destruct i as [|[|[|[|i]]]]; [reflexivity..|lia].
  - refine (proj1 (C3_server_error_retry_budget _ Sample.ticking Sample.url 3 1 world0 2 _ _) _ _ _ eq_refl).
    + lia.
    + intros i Hi. exists 503, []. split; [|lia].
      destruct i as [|[|i]]; [reflexivity..|lia].
    + lia.
Defined.

(** The claim C8 fails: the returned dictionary finds a field under the
    spelling it arrived in and under no other. *)
Lemma C8_header_lookup_is_case_sensitive :
  exists m w,
    http_get_json (scripted [Sample.shouting]) Sample.ticking Sample.url 3 1 world0 =
      (Return (Sample.page_body, m), w) /\
    Py.lower "LINK" = Py.lower "Link" /\
    m !! "LINK" = Some "<https://example.org/2>; rel=next" /\
    m !! "Link" = None /\
    m !! "link" = None.
Proof.
  exists (dict_of_items [("LINK", "<https://example.org/2>; rel=next")]),
         (mkWorld 1 0 [EvRequest Sample.url]).
  repeat split; vm_compute; reflexivity.
Qed.

Lemma C8_witness :
  http_get_json (scripted [Sample.shouting]) Sample.ticking Sample.url 3 1 world0 =
    (Return (Sample.page_body, dict_of_items [("LINK", "<https://example.org/2>; rel=next")]),
     mkWorld 1 0 [EvRequest Sample.url])
  /\ dict_of_items [("LINK", "<https://example.org/2>; rel=next")] !! "Link" = None.
Proof.
  destruct (C8_success_returns_plain_header_dict (scripted [Sample.shouting])
              Sample.ticking Sample.url 3 1 world0 _ _ ltac:(lia) eq_refl) as [Hrun Hget].
  split; [exact Hrun|]. rewrite Hget. reflexivity.
Defined.

End ExecutorExamples.

(** ** The fetcher on the worked inputs *)

Section FetcherExamples.
Import Http Fetch.

(** The claim C2 fails: the second page names itself as the next page,
    and the third request goes to that address again; nothing is raised. *)
Lemma C2_repeated_address_requested_twice :
  let r := paginate_repos Sample.looping Sample.ticking 3 "octocat" world0 in
  outcome r = Unfinished /\
  requested (trace (final r)) = [Sample.url; Sample.page2_url; Sample.page2_url].
Proof. vm_compute. split; reflexivity. Qed.

Lemma C2_witness :
  let r := paginate_repos Sample.looping Sample.ticking 3 "octocat" world0 in
  outcome r = Unfinished /\
  final r = mkWorld 3 0 [EvRequest Sample.url; EvRequest Sample.page2_url;
                         EvRequest Sample.page2_url].
Proof.
  destruct (C2_repeating_cursor_is_requested_again Sample.looping Sample.ticking
              [("Link", link_value [(Sample.page2_url, "next")])]
              [JObj [("name", JStr "alpha")]] Sample.page2_url
              (fun _ _ => eq_refl) eq_refl eq_refl 3%nat "octocat" world0)
    as (Hout & _ & Hfinal).
  split; [exact Hout | exact Hfinal].
Defined.


End FetcherExamples.

(** ** The fold on the worked inputs *)

Section FoldExamples.
Import Datetime Metrics.

#[local] Abbreviation run_at d := (analyze_repos fromisoformat (Sample.clock_at d)).

(** The claim C4 fails for the totals: one more record, with a negative
    star count, and [total_stars] goes down from 19 to 18. *)
Lemma C4_total_stars_can_decrease :
  exists m1 m2,
    run_at Sample.midnight Sample.portfolio 90 = Return m1 /\
    run_at Sample.midnight (Sample.portfolio ++ [Sample.negative_stars]) 90 = Return m2 /\
    Summary.total_stars m1 = 19 /\ Summary.total_stars m2 = 18.
Proof. eexists _, _. vm_compute. repeat split. Qed.

Lemma C4_witness :
  exists m,
    run_at Sample.midnight Sample.portfolio 90 = Return m /\
    Summary.repo_count m = 5 /\ Summary.total_stars m = 19.
Proof.
  assert (Hrun : run_at Sample.midnight
                   ([Sample.written_in "Go" 10; Sample.written_in "C" 5] ++
                    [Sample.written_in "Python" 1; Sample.written_in "C" 0;
                     Sample.written_in "Go" 3]) 90 =
                 Return (Summary.mk 5 19 0 [("Go", 2); ("C", 2); ("Python", 1)] 0 5
                           (Some "2024-01-10T08:30:00+00:00")
                           (Some "2024-01-12T09:00:00+00:00") [("2024-01", 5)]))
    by (vm_compute; reflexivity).
  destruct (C4_fold_invariants _ _ _ _ _ _ Hrun) as (Hcount & _).
  eexists. split; [exact Hrun|]. split; [exact Hcount | reflexivity].
Defined.

(** The claim C6 fails for the empty string: a language field that is
    not null but empty is not counted, so the table has no entry for it
    although a recount of the input finds it once. *)
Lemma C6_empty_language_not_counted :
  exists m,
    run_at Sample.midnight [Sample.empty_language] 90 = Return m /\
    language_count EmptyString [Sample.empty_language] = 1 /\
    get EmptyString (Summary.languages m) = None.
Proof. eexists. vm_compute. repeat split. Qed.

Lemma C6_witness :
  exists m,
    run_at Sample.midnight Sample.portfolio 90 = Return m /\
    Summary.languages m = [("Go", 2); ("C", 2); ("Python", 1)] /\
    get "C" (Summary.languages m) = Some 2.
Proof.
  assert (Hrun : run_at Sample.midnight Sample.portfolio 90 =
                 Return (Summary.mk 5 19 0 [("Go", 2); ("C", 2); ("Python", 1)] 0 5
                           (Some "2024-01-10T08:30:00+00:00")
                           (Some "2024-01-12T09:00:00+00:00") [("2024-01", 5)]))
    by (vm_compute; reflexivity).
  destruct (C6_language_table _ _ _ _ _ Hrun) as (Hget & _).
  eexists. split; [exact Hrun|]. split; [reflexivity|].
  rewrite (Hget "C" eq_refl). reflexivity.
Defined.

(** The claim C7 fails for the key of an early year: the year 999 is
    rendered with three digits, so the record is counted under
    [999-03], a key of six characters, and not under [0999-03]. *)
Lemma C7_year_before_1000_has_fewer_digits :
  exists m,
    run_at Sample.midnight [Sample.updated "0999-03-15T00:00:00Z"] 90 = Return m /\
    Summary.monthly_update_counts m = [("999-03", 1)] /\
    get "0999-03" (Summary.monthly_update_counts m) = None.
Proof. eexists. vm_compute. repeat split. Qed.

Lemma C7_witness :
  exists m,
    run_at Sample.midnight Sample.three_updates 90 = Return m /\
    Summary.monthly_update_counts m = [("2024-01", 2); ("2024-02", 1)] /\
    get "2024-01" (Summary.monthly_update_counts m) = Some 2 /\
    (forall ym n, In (ym, n) (Summary.monthly_update_counts m) -> String.length ym = 7%nat).
Proof.
  assert (Hrun : run_at Sample.midnight Sample.three_updates 90 =
                 Return (Summary.mk 3 0 0 [] 3 3 None
                           (Some "2024-02-01T00:00:00+00:00")
                           [("2024-01", 2); ("2024-02", 1)]))
    by (vm_compute; reflexivity).
  assert (Hyears : forall r d, In r Sample.three_updates ->
            iso_to_dt fromisoformat (updated_at r) = Some d -> 1000 <= year d <= 9999).
  { intros r d [<-|[<-|[<-|[]]]]; vm_compute; intros [= <-]; cbn; split; discriminate. }
  destruct (proj2 (C7_month_buckets fromisoformat (Sample.clock_at Sample.midnight))
              _ _ _ Hrun) as (Hget & _ & Hlen & _).
  eexists. split; [exact Hrun|]. split; [reflexivity|].
  split; [rewrite (Hget "2024-01"); reflexivity | exact (Hlen Hyears)].
Defined.

(** The claim C10 fails for a window that reaches back before the year
    1: on 14 February 2024 the fold of no records raises for a window
    of 738930 days or more, and returns for one of 738929 days. *)
Lemma C10_window_before_year_1_raises :
  run_at Sample.midnight [] 800000 = Raise OverflowError /\
  run_at Sample.midnight [] 738930 = Raise OverflowError /\
  run_at Sample.midnight [] 738929 = Return (Summary.mk 0 0 0 [] 0 0 None None []).
Proof. vm_compute. repeat split. Qed.

Lemma C10_witness :
  run_at Sample.midnight [] 90 = Return (Summary.mk 0 0 0 [] 0 0 None None []).
Proof.
  assert (Hnow : Range.representable (Sample.clock_at Sample.midnight O)).
  { unfold Range.representable, Sample.clock_at.
    change (wall_micros Sample.midnight) with 63843552000000000.
    unfold micros_per_day, micros_per_second. lia. }
  assert (Hcut : Range.representable
                   (Sample.clock_at Sample.midnight O - 90 * micros_per_day)).
  { unfold Range.representable, Sample.clock_at.
    change (wall_micros Sample.midnight) with 63843552000000000.
    unfold micros_per_day, micros_per_second. lia. }
  exact (proj1 (C10_empty_summary fromisoformat (Sample.clock_at Sample.midnight) 90 Hnow)
           Hcut).
Defined.

(** The claim C9 fails: the record was updated thirty days before the
    first run to the second; a second run one second later no longer
    counts it among the updates of the last thirty days. *)
Lemma C9_rerun_differs_when_clock_moves :
  exists m1 m2,
    run_at Sample.midnight [Sample.updated "2024-01-15T00:00:00Z"] 90 = Return m1 /\
    run_at Sample.a_second_later [Sample.updated "2024-01-15T00:00:00Z"] 90 = Return m2 /\
    Summary.updated_last_30d m1 = 1 /\
    Summary.updated_last_30d m2 = 0 /\
    m1 <> m2.
Proof.
  eexists _, _. vm_compute. repeat split. discriminate.
Qed.

Lemma C9_witness :
  (exists m1 m2,
     run_at Sample.midnight [Sample.updated "2024-01-15T00:00:00Z"] 90 = Return m1 /\
     run_at Sample.a_second_later [Sample.updated "2024-01-15T00:00:00Z"] 90 = Return m2 /\
     Summary.monthly_update_counts m1 = Summary.monthly_update_counts m2 /\
     Summary.last_updated_at m1 = Summary.last_updated_at m2) /\
  run_at Sample.midnight [Sample.written_in "Go" 10] 90 =
  analyze_repos fromisoformat (fun _ => wall_micros Sample.midnight)
    [Sample.written_in "Go" 10] 90.
Proof.
  split.
  - assert (R1 : Range.dates_in_range (Sample.clock_at Sample.midnight) 90).
    { unfold Range.dates_in_range, Range.representable, Sample.clock_at.
      change (wall_micros Sample.midnight) with 63843552000000000.
      unfold micros_per_day, micros_per_second. split; [lia | intros _; lia]. }
    assert (R2 : Range.dates_in_range (Sample.clock_at Sample.a_second_later) 90).
    { unfold Range.dates_in_range, Range.representable, Sample.clock_at.
      change (wall_micros Sample.a_second_later) with 63843552001000000.
      unfold micros_per_day, micros_per_second. split; [lia | intros _; lia]. }
    assert (Hrun1 : run_at Sample.midnight [Sample.updated "2024-01-15T00:00:00Z"] 90 =
                    Return (Summary.mk 1 0 0 [] 1 1 None
                              (Some "2024-01-15T00:00:00+00:00") [("2024-01", 1)]))
      by (vm_compute; reflexivity).
    assert (Hrun2 : run_at Sample.a_second_later [Sample.updated "2024-01-15T00:00:00Z"] 90 =
                    Return (Summary.mk 1 0 0 [] 0 1 None
                              (Some "2024-01-15T00:00:00+00:00") [("2024-01", 1)]))
      by (vm_compute; reflexivity).
    generalize (proj1 (C9_rerun_agrees_up_to_clock fromisoformat
                         (Sample.clock_at Sample.midnight)
                         (Sample.clock_at Sample.a_second_later)
                         [Sample.updated "2024-01-15T00:00:00Z"] 90) R1 R2).
    rewrite Hrun1, Hrun2. intros (_ & _ & _ & _ & _ & Hu & Hm).
    eexists _, _. split; [reflexivity|]. split; [reflexivity|].
    split; [exact Hm | exact Hu].
  - exact (proj2 (C9_rerun_agrees_up_to_clock fromisoformat (Sample.clock_at Sample.midnight)
                    (fun _ => wall_micros Sample.midnight) [Sample.written_in "Go" 10] 90)
                 (fun k => eq_refl)).
Defined.

End FoldExamples.

(** * Further properties *)

(** ** The executor: the other branches *)

Section ExecutorBranches.
Import Http Replies.

Variable server : nat -> string -> reply.
Variable clock : nat -> Z.

Lemma is_backed_off_not_rate_limited code hdrs :
  is_backed_off (HTTPErrorReply code hdrs) = true -> rate_limit_reset code hdrs = None.
Proof.
  cbn. rewrite andb_true_iff, Z.leb_le, Z.ltb_lt. intros H.
  apply rate_limit_reset_not_403. lia.
Qed.

(** One pass on a backed-off failure while the budget lasts. *)
Lemma attempts_backed_off_retry url retries base todo attempt last w :
  is_backed_off (server (requests w) url) = true ->
  attempt < retries ->
  attempts server clock url retries base (S todo) attempt last w =
  attempts server clock url retries base todo (attempt + 1)
    (Some (error_of (server (requests w) url)))
    (after_retry url (base * (attempt + 1)) 0 w).
Proof.
  intros Hr Hlt.
  cbn [attempts]. unfold bind at 1. unfold urlopen at 1. cbn [requests].
  destruct (server (requests w) url) as [hdrs [data|] | code hdrs | | ] eqn:E;
    try discriminate.
  - replace (attempt <? retries) with true by (symmetry; apply Z.ltb_lt; lia).
    unfold bind, sleep, after_retry. cbn. rewrite <- app_assoc. reflexivity.
  - rewrite (is_backed_off_not_rate_limited _ _ Hr). cbn in Hr. rewrite Hr.
    replace (attempt <? retries) with true by (symmetry; apply Z.ltb_lt; lia).
    unfold bind, sleep, after_retry. cbn. rewrite <- app_assoc. reflexivity.
  - replace (attempt <? retries) with true by (symmetry; apply Z.ltb_lt; lia).
    unfold bind, sleep, after_retry. cbn. rewrite <- app_assoc. reflexivity.
  - replace (attempt <? retries) with true by (symmetry; apply Z.ltb_lt; lia).
    unfold bind, sleep, after_retry. cbn. rewrite <- app_assoc. reflexivity.
Qed.

(** One pass on a backed-off failure with the budget used up. *)
Lemma attempts_backed_off_exhausted url retries base todo attempt last w :
  is_backed_off (server (requests w) url) = true ->
  retries <= attempt ->
  attempts server clock url retries base (S todo) attempt last w =
  (Raise (error_of (server (requests w) url)), after_request url w).
Proof.
  intros Hr Hge.
  cbn [attempts]. unfold bind at 1. unfold urlopen at 1. cbn [requests].
  destruct (server (requests w) url) as [hdrs [data|] | code hdrs | | ] eqn:E;
    try discriminate;
    try rewrite (is_backed_off_not_rate_limited _ _ Hr);
    replace (attempt <? retries) with false by (symmetry; apply Z.ltb_ge; lia);
    rewrite ?andb_false_r; reflexivity.
Qed.

Lemma attempts_backed_off_run url retries base n :
  forall todo attempt last w,
  (forall i, (i < n)%nat -> is_backed_off (server (i + requests w) url) = true) ->
  attempt + Z.of_nat n <= retries ->
  attempts server clock url retries base (n + todo) attempt last w =
  attempts server clock url retries base todo (attempt + Z.of_nat n)
    (last_error server url w n last)
    (after_retries url
       (map (fun k => base * (attempt + Z.of_nat k)) (seq 1 n)) 0 w).
Proof.
  induction n as [|n IH]; intros todo attempt last w H Hle.
  - cbn [seq map Nat.add last_error]. rewrite after_retries_nil. f_equal. lia.
  - cbn [Nat.add].
    rewrite (attempts_backed_off_retry url retries base _ attempt last w)
      by (try apply (H O); lia).
    rewrite IH.
    + rewrite after_retries_cons, (last_error_step _ _ _ _ _ _ last). cbn [seq map].
      f_equal; [lia | ].
      f_equal. f_equal.
      rewrite <- (seq_shift n 1), map_map. apply map_ext. intros k. f_equal. lia.
    + intros i Hi. cbn [after_retry requests].
      replace (i + S (requests w))%nat with (S i + requests w)%nat by lia.
      apply H. lia.
    + lia.
Qed.

(** X1. Transport errors, other exceptions and 2xx replies whose body
    does not decode share the retry budget and the linear backoff of
    the 5xx replies, in any mix: after [n <= retries] such failures a
    good reply is returned, after [retries + 1] of them the exception
    of the last one is raised. *)
Theorem transient_failures_share_the_backoff url retries base w n :
  0 <= retries ->
  (forall i, (i < n)%nat -> is_backed_off (server (i + requests w)%nat url) = true) ->
  (Z.of_nat n <= retries ->
   forall hdrs data,
     server (n + requests w)%nat url = Response hdrs (Some data) ->
     http_get_json server clock url retries base w =
     (Return (data, dict_of_items hdrs),
      after_request url (after_retries url (backoff_delays base n) 0 w)))
  /\
  (Z.of_nat n = retries + 1 ->
   http_get_json server clock url retries base w =
   (Raise (error_of (server (Z.to_nat retries + requests w)%nat url)),
    after_request url
      (after_retries url (backoff_delays base (Z.to_nat retries)) 0 w))).
Proof.
  intros Hret Herr. split.
  - intros Hn hdrs data Hok.
    rewrite (http_get_json_unfold _ _ url retries base w (n + S (Z.to_nat retries - n))) by lia.
    rewrite attempts_backed_off_run by (auto; lia).
    rewrite backoff_from_zero.
    apply attempts_success.
    unfold after_retries. cbn [requests]. rewrite length_backoff_delays. exact Hok.
  - intros Hn.
    rewrite (http_get_json_unfold _ _ url retries base w (Z.to_nat retries + 1)) by lia.
    rewrite attempts_backed_off_run by (try (intros; apply Herr); lia).
    rewrite backoff_from_zero.
    rewrite attempts_backed_off_exhausted.
    + unfold after_retries at 1. cbn [requests]. rewrite length_backoff_delays. reflexivity.
    + unfold after_retries. cbn [requests]. rewrite length_backoff_delays.
      apply Herr. lia.
    + lia.
Qed.

(** X2. An HTTP error that is neither a 5xx status nor a 403 with a
    numeric reset field is raised at once: one request, no sleep, no
    second attempt, whatever the budget. *)
Theorem client_error_is_not_retried url retries base w :
  0 <= retries ->
  is_client_error (server (requests w) url) = true ->
  http_get_json server clock url retries base w =
  (Raise (error_of (server (requests w) url)), after_request url w).
Proof.
  intros Hret Hr.
  rewrite (http_get_json_unfold _ _ url retries base w (S (Z.to_nat retries))) by lia.
  cbn [attempts]. unfold bind at 1. unfold urlopen at 1. cbn [requests].
  destruct (server (requests w) url) as [hdrs [data|] | code hdrs | | ]; try discriminate.
  cbn in Hr. apply andb_true_iff in Hr. destruct Hr as [H5 Hrl].
  destruct (rate_limit_reset code hdrs); [discriminate|].
  apply negb_true_iff in H5. rewrite H5. reflexivity.
Qed.

(** X3. With a negative budget the loop body never runs: no request is
    sent, and the [RuntimeError] after the loop is raised. *)
Theorem negative_budget_sends_nothing url retries base w :
  retries < 0 ->
  http_get_json server clock url retries base w =
  (Raise (RuntimeError "GET failed without exception"), w).
Proof.
  intros H. rewrite (http_get_json_unfold _ _ url retries base w O) by lia.
  reflexivity.
Qed.

(** X4. A reset field that passes [isdigit] but is not a decimal
    number (a superscript digit) makes [int] raise inside the handler:
    a [ValueError] leaves the executor after one request, without a
    sleep and whatever the budget. *)
Theorem superscript_reset_raises_ValueError url retries base w hdrs reset :
  0 <= retries ->
  server (requests w) url = HTTPErrorReply 403 hdrs ->
  message_get "X-RateLimit-Reset" hdrs = Some reset ->
  Py.isdigit reset = true ->
  Py.int_of_digits reset = None ->
  http_get_json server clock url retries base w = (Raise ValueError, after_request url w).
Proof.
  intros Hret Hr Hget Hdig Hint.
  rewrite (http_get_json_unfold _ _ url retries base w (S (Z.to_nat retries))) by lia.
  cbn [attempts]. unfold bind at 1. unfold urlopen at 1. cbn [requests].
  rewrite Hr. unfold rate_limit_reset. cbn [Z.eqb Pos.eqb]. rewrite Hget.
  assert (Ht : Py.truthy reset = true)
    by (unfold Py.isdigit in Hdig; apply andb_true_iff in Hdig; tauto).
  rewrite Ht, Hdig. cbn [andb]. rewrite Hint. reflexivity.
Qed.

End ExecutorBranches.

(** ** The executor: what every call keeps to *)

Section ExecutorInvariant.
Import Http Replies.

Variable server : nat -> string -> reply.
Variable clock : nat -> Z.






(** *** The reset field is found in any spelling *)

Lemma message_get_same_up_to_case name name' hdrs hdrs' :
  Py.lower name = Py.lower name' ->
  same_up_to_case hdrs hdrs' ->
  message_get name hdrs = message_get name' hdrs'.
Proof.
  intros Hname. induction 1 as [|[k v] [k' v'] hdrs hdrs' [Hk Hv] _ IH]; [reflexivity|].
  cbn [message_get fst snd] in *. rewrite Hk, Hname, Hv, IH. reflexivity.
Qed.

(** X6. Whether a reply takes the rate-limit branch does not depend on
    the letter case in which the header names arrive: the reset field
    is looked up on the message object, not in the dictionary that a
    successful call returns. *)
Theorem rate_limit_detection_ignores_case code hdrs hdrs' :
  same_up_to_case hdrs hdrs' ->
  rate_limit_reset code hdrs = rate_limit_reset code hdrs'.
Proof.
  intros H. unfold rate_limit_reset.
  rewrite (message_get_same_up_to_case _ "X-RateLimit-Reset" hdrs hdrs' eq_refl H).
  reflexivity.
Qed.

End ExecutorInvariant.

(** ** The fetcher: failures and odd link fields *)

Section FetcherFailures.
Import Http Fetch Crawl.

Variable server : nat -> string -> reply.
Variable clock : nat -> Z.

(** A run over a chain of pages is the run from the address the chain
    leads to, with the records of the chain in front. *)
Lemma pages_through ps : forall a fuel w,
  serves server (requests w) ps ->
  linked ps a ->
  Py.truthy (start ps a) = true ->
  pages server clock (length ps + fuel) (Some (start ps a)) w =
  let r := pages server clock fuel (Some a) (after_pages (map address ps) w) in
  mkRun (concat (map records ps) ++ yielded r) (outcome r) (final r).
Proof.
  induction ps as [|p ps IH]; intros a fuel w Hserve Hlink Htruthy.
  - cbn [length Nat.add start map concat app]. rewrite after_pages_nil.
    destruct (pages server clock fuel (Some a) w); reflexivity.
  - cbn [start] in Htruthy |- *. destruct Hlink as [(Harr & Hnext & Hnt) Hlink].
    assert (Hreply : server (requests w) (address p) = page_reply p)
      by (apply (Hserve O p); reflexivity).
    unfold page_reply in Hreply.
    destruct (body p) as [| | | |items|] eqn:Hbody; try discriminate.
    cbn [length Nat.add].
    rewrite (pages_array _ _ _ _ _ _ _ Htruthy Hreply). rewrite Hnext. cbn zeta.
    change (match ps with [] => a | q :: _ => address q end) with (start ps a) in *.
    rewrite (IH a fuel (after_request (address p) w)); [| |exact Hlink|exact Hnt].
    + cbn [yielded outcome final]. rewrite after_pages_cons.
      cbn [map concat]. replace (records p) with items
        by (unfold records; rewrite Hbody; reflexivity).
      rewrite <- app_assoc. reflexivity.
    + intros i q Hi. cbn [after_request requests].
      replace (i + S (requests w))%nat with (S i + requests w)%nat by lia.
      apply Hserve. exact Hi.
Qed.

(** X7. When the executor raises on the page that a chain of pages
    leads to, the generator has yielded the records of the chain, in
    page order, and ends with that exception: nothing is requested
    after the failed call, and nothing is caught. *)
Theorem failure_ends_the_generator ps a fuel username w e w' :
  start ps a = first_page_url username ->
  serves server (requests w) ps ->
  linked ps a ->
  Py.truthy a = true ->
  (length ps < fuel)%nat ->
  http_get_json server clock a 3 1 (after_pages (map address ps) w) = (Raise e, w') ->
  paginate_repos server clock fuel username w =
  mkRun (concat (map records ps)) (Failed e) w'.
Proof.
  intros Hstart Hserve Hlink Ha Hfuel Hfail. unfold paginate_repos.
  rewrite <- Hstart.
  replace fuel with (length ps + S (fuel - length ps - 1))%nat by lia.
  rewrite pages_through; try assumption.
  - cbn [pages]. rewrite Ha. cbn [negb]. rewrite Hfail. cbn.
    rewrite app_nil_r. reflexivity.
  - rewrite Hstart. apply truthy_first_page_url.
Qed.

(** *** A link field without a double quote *)

Lemma startswith_avoids c p : forall s,
  Py.startswith p s = true -> avoids c s = true -> avoids c p = true.
Proof.
  induction p as [|a p IH]; intros s Hp Hs; [reflexivity|].
  destruct s as [|b s]; [discriminate|].
  rewrite startswith_cons, andb_true_iff in Hp. destruct Hp as [Hab Hp].
  apply Ascii.eqb_eq in Hab. subst b.
  rewrite avoids_cons, andb_true_iff in Hs |- *. destruct Hs as [Ha Hs].
  split; [exact Ha | eapply IH; eassumption].
Qed.

Lemma contains_avoids c p s :
  avoids c p = false -> avoids c s = true -> Py.contains p s = false.
Proof.
  intros Hp. induction s as [|b s IH]; intros Hs.
  - cbn. destruct (Py.startswith p EmptyString) eqn:E; [|reflexivity].
    rewrite (startswith_avoids c p _ E Hs) in Hp. discriminate.
  - rewrite contains_cons.
    destruct (Py.startswith p (String b s)) eqn:E.
    + rewrite (startswith_avoids c p _ E Hs) in Hp. discriminate.
    + rewrite avoids_cons, andb_true_iff in Hs. apply IH. tauto.
Qed.

Lemma avoids_split c sep s :
  avoids c s = true -> Forall (fun p => avoids c p = true) (Py.split sep s).
Proof.
  induction s as [|a s IH]; intros Hs.
  - repeat constructor.
  - rewrite avoids_cons, andb_true_iff in Hs. destruct Hs as [Ha Hs].
    specialize (IH Hs). cbn [Py.split].
    destruct (Ascii.eqb a sep).
    + constructor; [reflexivity | exact IH].
    + destruct (Py.split sep s) as [|p ps].
      * constructor; [|constructor]. rewrite avoids_cons, Ha. reflexivity.
      * inversion IH as [|? ? Hp Hps]; subst. constructor; [|exact Hps].
        rewrite avoids_cons, Ha, Hp. reflexivity.
Qed.

Lemma avoids_lstrip c s : avoids c s = true -> avoids c (Py.lstrip s) = true.
Proof.
  induction s as [|a s IH]; intros Hs; [reflexivity|].
  cbn [Py.lstrip]. destruct (Py.is_space a); [|exact Hs].
  rewrite avoids_cons, andb_true_iff in Hs. apply IH. tauto.
Qed.

Lemma avoids_rstrip c s : avoids c s = true -> avoids c (Py.rstrip s) = true.
Proof.
  induction s as [|a s IH]; intros Hs; [reflexivity|].
  rewrite avoids_cons, andb_true_iff in Hs. destruct Hs as [Ha Hs].
  specialize (IH Hs). cbn [Py.rstrip].
  destruct (Py.rstrip s) as [|b r].
  - destruct (Py.is_space a); [reflexivity|]. rewrite avoids_cons, Ha. reflexivity.
  - rewrite avoids_cons, Ha, IH. reflexivity.
Qed.

Lemma scan_parts_without_quotes parts :
  Forall (fun p => avoids Py.dquote p = true) parts -> scan_parts parts = None.
Proof.
  induction 1 as [|p parts Hp _ IH]; [reflexivity|].
  cbn [scan_parts]. rewrite (contains_avoids Py.dquote rel_next p eq_refl Hp).
  exact IH.
Qed.

(** X8. A link field in which no double quote occurs names no next
    page, whatever else it holds: a relation written without quotes,
    as in [<url>; rel=next], is not recognised and pagination ends. *)
Theorem link_without_quotes_names_no_page resp_headers h :
  link_header resp_headers = Some h ->
  avoids Py.dquote h = true ->
  next_url resp_headers = None.
Proof.
  intros Hh Hq. unfold next_url. rewrite Hh.
  destruct (Py.truthy h); [|reflexivity].
  apply scan_parts_without_quotes.
  apply Forall_map.
  apply (Forall_impl _ _ _ (avoids_split Py.dquote ","%char h Hq)).
  intros p Hp. unfold Py.strip. apply avoids_rstrip, avoids_lstrip, Hp.
Qed.

End FetcherFailures.

(** ** The fold: what the summary holds *)

Section SummaryFacts.
Import Datetime Metrics Recount.

Variable fromisoformat : string -> option datetime.
Variable now : nat -> Z.

#[local] Abbreviation iso_to_dt' := (iso_to_dt fromisoformat).
#[local] Abbreviation fold_repo' := (fold_repo fromisoformat now).
#[local] Abbreviation fold_repos' := (fold_repos fromisoformat now).
#[local] Abbreviation analyze_repos' := (analyze_repos fromisoformat now).
#[local] Abbreviation pushed_dates' := (pushed_dates fromisoformat).
#[local] Abbreviation updated_dates' := (updated_dates fromisoformat).

(** The rolling counters and the clock after one pass. *)
Lemma fold_repo_activity cutoff st r st' :
  fold_repo' cutoff st r = Return st' ->
  match iso_to_dt' (updated_at r) with
  | None =>
      updated_last_30d st' = updated_last_30d st /\
      updated_last_90d st' = updated_last_90d st /\
      clock_reads st' = clock_reads st
  | Some u =>
      aware u = true /\
      updated_last_30d st' = updated_last_30d st
        + (if now (clock_reads st) - 30 * micros_per_day <=? instant u then 1 else 0) /\
      updated_last_90d st' = updated_last_90d st
        + (if cutoff <=? instant u then 1 else 0) /\
      clock_reads st' = S (clock_reads st)
  end.
Proof.
  unfold fold_repo.
  destruct (most_recent _ (last_pushed_at st)) as [lp|]; [|discriminate].
  destruct (most_recent _ (last_updated_at st)) as [lu|]; [|discriminate].
  destruct (iso_to_dt' (updated_at r)) as [u|].
  - destruct (minus_days _ _) as [mark|] eqn:Hmark; [|discriminate].
    apply minus_days_Return in Hmark. subst mark.
    unfold not_before, aware, instant. destruct (utcoffset u); [|discriminate].
    intros [= <-]. cbn. repeat split.
  - intros [= <-]. cbn. repeat split.
Qed.

Lemma fold_repos_totals cutoff rs : forall st st',
  fold_repos' cutoff st rs = Return st' ->
  total_stars st' = total_stars st + sum_of stargazers_count rs /\
  total_forks st' = total_forks st + sum_of forks_count rs.
Proof.
  induction rs as [|r rs IH]; intros st st' H; cbn [Metrics.fold_repos] in H.
  - injection H as <-. cbn. lia.
  - destruct (fold_repo' cutoff st r) as [st1|] eqn:Hstep; [|discriminate].
    destruct (fold_repo_Return _ _ _ _ _ _ Hstep) as (Hs & Hf & _).
    destruct (IH _ _ H) as [Hs' Hf']. cbn [sum_of foldr].
    fold (sum_of stargazers_count rs) (sum_of forks_count rs). lia.
Qed.

Lemma fold_repos_activity cutoff rs : forall st st',
  fold_repos' cutoff st rs = Return st' ->
  Forall (fun d => aware d = true) (updated_dates' rs) /\
  updated_last_30d st' =
    updated_last_30d st + recent_30 now (clock_reads st) (updated_dates' rs) /\
  updated_last_90d st' = updated_last_90d st + recent_since cutoff (updated_dates' rs).
Proof.
  induction rs as [|r rs IH]; intros st st' H; cbn [Metrics.fold_repos] in H.
  - injection H as <-. cbn. split; [constructor | lia].
  - destruct (fold_repo' cutoff st r) as [st1|] eqn:Hstep; [|discriminate].
    pose proof (fold_repo_activity _ _ _ _ Hstep) as Hact.
    destruct (IH _ _ H) as (Haw & H30 & H90).
    unfold updated_dates in *. cbn [omap list_omap].
    destruct (iso_to_dt' (updated_at r)) as [u|].
    + destruct Hact as (Hu & A30 & A90 & Aclk). rewrite Aclk in H30.
      cbn [recent_30 recent_since]. split; [constructor; assumption | lia].
    + destruct Hact as (A30 & A90 & Aclk). rewrite Aclk in H30.
      split; [assumption | lia].
Qed.

Lemma recent_30_bounds k ds : 0 <= recent_30 now k ds <= Z.of_nat (length ds).
Proof.
  revert k. induction ds as [|d ds IH]; intros k; cbn [recent_30 length]; [lia|].
  specialize (IH (S k)). destruct (_ <=? _); lia.
Qed.

Lemma recent_since_bounds cutoff ds : 0 <= recent_since cutoff ds <= Z.of_nat (length ds).
Proof.
  induction ds as [|d ds IH]; cbn [recent_since length]; [lia|].
  destruct (_ <=? _); lia.
Qed.

Lemma length_updated_dates repos : (length (updated_dates' repos) <= length repos)%nat.
Proof.
  unfold updated_dates. induction repos as [|r repos IH]; cbn [omap list_omap length]; [lia|].
  destruct (iso_to_dt' (updated_at r)); cbn [length]; lia.
Qed.

(** X9. The two totals of a summary are the sums of the star and fork
    counts of the records, a missing or null count adding nothing. *)
Theorem totals_are_sums repos since_days m :
  analyze_repos' repos since_days = Return m ->
  Summary.total_stars m = sum_of stargazers_count repos /\
  Summary.total_forks m = sum_of forks_count repos.
Proof.
  intros H. destruct (analyze_repos_fold _ _ _ _ _ H) as (st & Hfold & ->).
  destruct (fold_repos_totals _ _ _ _ Hfold) as [Hs Hf].
  cbn in *. lia.
Qed.

Lemma rolling_counters_recounted_aux repos since_days m :
  analyze_repos' repos since_days = Return m ->
  Summary.updated_last_30d m = recent_30 now 1 (updated_dates' repos) /\
  Summary.updated_last_90d m =
    recent_since (now O - since_days * micros_per_day) (updated_dates' repos).
Proof.
  intros H. destruct (analyze_repos_fold _ _ _ _ _ H) as (st & Hfold & ->).
  destruct (fold_repos_activity _ _ _ _ Hfold) as (_ & H30 & H90).
  cbn in *. lia.
Qed.

(** X10. The rolling counters of a summary: [updated_last_90d] counts
    the parsed [updated_at] values at or after the cutoff taken from
    the first clock reading, [updated_last_30d] those at or after the
    30-day mark of the reading taken for each record in turn; neither
    is negative nor above the number of records. *)
Theorem rolling_counters_recounted repos since_days m :
  analyze_repos' repos since_days = Return m ->
  Summary.updated_last_30d m = recent_30 now 1 (updated_dates' repos) /\
  Summary.updated_last_90d m =
    recent_since (now O - since_days * micros_per_day) (updated_dates' repos) /\
  0 <= Summary.updated_last_30d m <= Summary.repo_count m /\
  0 <= Summary.updated_last_90d m <= Summary.repo_count m.
Proof.
  intros H. destruct (rolling_counters_recounted_aux repos since_days m H) as [H30 H90].
  assert (Hcount : Summary.repo_count m = Z.of_nat (length repos)).
  { destruct (analyze_repos_fold _ _ _ _ _ H) as (st & _ & ->). reflexivity. }
  rewrite H30, H90, Hcount.
  pose proof (recent_30_bounds 1 (updated_dates' repos)).
  pose proof (recent_since_bounds (now O - since_days * micros_per_day) (updated_dates' repos)).
  pose proof (length_updated_dates repos).
  repeat split; lia.
Qed.

Lemma recent_30_le_since cutoff k ds :
  (forall j, cutoff <= now j - 30 * micros_per_day) ->
  recent_30 now k ds <= recent_since cutoff ds.
Proof.
  intros Hcut. revert k. induction ds as [|d ds IH]; intros k; cbn [recent_30 recent_since]; [lia|].
  specialize (IH (S k)). specialize (Hcut k).
  destruct (Z.leb_spec (now k - 30 * micros_per_day) (instant d)),
           (Z.leb_spec cutoff (instant d)); lia.
Qed.

(** X11. With a window of at least 30 days and a clock that never shows
    less than its first reading, a summary counts no more updates in
    the last 30 days than in the window. *)
Theorem thirty_days_within_window repos since_days m :
  30 <= since_days ->
  (forall k, now O <= now k) ->
  analyze_repos fromisoformat now repos since_days = Return m ->
  Summary.updated_last_30d m <= Summary.updated_last_90d m.
Proof.
  intros Hdays Hclock H.
  destruct (rolling_counters_recounted_aux repos since_days m H) as [-> ->].
  apply recent_30_le_since. intros j. specialize (Hclock j).
  unfold micros_per_day, micros_per_second. nia.
Qed.

End SummaryFacts.

(** ** The fold: the tracked timestamps and the failures *)

Section TrackFacts.
Import Datetime Metrics Recount.

Variable fromisoformat : string -> option datetime.
Variable now : nat -> Z.

#[local] Abbreviation iso_to_dt' := (iso_to_dt fromisoformat).
#[local] Abbreviation fold_repo' := (fold_repo fromisoformat now).
#[local] Abbreviation fold_repos' := (fold_repos fromisoformat now).
#[local] Abbreviation analyze_repos' := (analyze_repos fromisoformat now).
#[local] Abbreviation pushed_dates' := (pushed_dates fromisoformat).
#[local] Abbreviation updated_dates' := (updated_dates fromisoformat).

(** *** The order of datetimes *)


Lemma compare_Gt_Lt a b : compare a b = Some Gt -> earlier b a.
Proof.
  unfold earlier, compare. destruct (utcoffset a), (utcoffset b); try discriminate;
    intros [= H]; f_equal; apply -> Z.compare_gt_iff in H; apply Z.compare_lt_iff; lia.
Qed.

Lemma earlier_trans a b c : earlier a b -> earlier b c -> earlier a c.
Proof.
  unfold earlier, compare.
  destruct (utcoffset a), (utcoffset b), (utcoffset c); try discriminate;
    intros [= H1] [= H2]; f_equal;
    apply -> Z.compare_lt_iff in H1; apply -> Z.compare_lt_iff in H2;
    apply Z.compare_lt_iff; lia.
Qed.

Lemma not_later_earlier a b c : not_later a b -> earlier b c -> earlier a c.
Proof.
  unfold not_later, earlier, compare.
  destruct (utcoffset a), (utcoffset b), (utcoffset c); try (intros [|]; discriminate);
    try discriminate;
    intros [[= H1]|[= H1]] [= H2]; f_equal;
    try apply -> Z.compare_lt_iff in H1; try apply -> Z.compare_eq_iff in H1;
    apply -> Z.compare_lt_iff in H2; apply Z.compare_lt_iff; lia.
Qed.

Lemma not_later_trans a b c : not_later a b -> not_later b c -> not_later a c.
Proof.
  intros Hab [Hbc|Hbc]; [left; eapply not_later_earlier; eassumption|].
  unfold not_later, compare in *.
  destruct (utcoffset a), (utcoffset b), (utcoffset c); try (destruct Hab; discriminate);
    try discriminate;
    injection Hbc as Hbc; apply -> Z.compare_eq_iff in Hbc;
    destruct Hab as [[= H1]|[= H1]];
    [left|right|left|right]; f_equal;
    try apply -> Z.compare_lt_iff in H1; try apply -> Z.compare_eq_iff in H1;
    try apply Z.compare_lt_iff; try apply Z.compare_eq_iff; lia.
Qed.

(** *** Tracking the latest date *)

Lemma track_Some c ds : forall r,
  track (Some c) ds = Return r ->
  exists d, r = Some d /\
    ((d = c /\ Forall (fun x => not_later x c) ds) \/
     (earlier c d /\ first_latest d ds)).
Proof.
  revert c. induction ds as [|x ds IH]; intros c r H; cbn [track most_recent] in H.
  - injection H as <-. exists c. split; [reflexivity|]. left. split; [reflexivity | constructor].
  - destruct (compare x c) as [[]|] eqn:Hc; [| | |discriminate].
    + destruct (IH _ _ H) as (d & Hr & [[Hd Hall] | [Hcd (l1 & l2 & Hds & H1 & H2)]]);
        exists d; (split; [exact Hr|]).
      * left. split; [exact Hd|]. constructor; [right; exact Hc | exact Hall].
      * right. split; [exact Hcd|]. exists (x :: l1), l2. rewrite Hds.
        split; [reflexivity|]. split; [|exact H2]. constructor; [|exact H1].
        eapply not_later_earlier; [right; exact Hc | exact Hcd].
    + destruct (IH _ _ H) as (d & Hr & [[Hd Hall] | [Hcd (l1 & l2 & Hds & H1 & H2)]]);
        exists d; (split; [exact Hr|]).
      * left. split; [exact Hd|]. constructor; [left; exact Hc | exact Hall].
      * right. split; [exact Hcd|]. exists (x :: l1), l2. rewrite Hds.
        split; [reflexivity|]. split; [|exact H2]. constructor; [|exact H1].
        eapply not_later_earlier; [left; exact Hc | exact Hcd].
    + apply compare_Gt_Lt in Hc.
      destruct (IH _ _ H) as (d & Hr & [[Hd Hall] | [Hxd (l1 & l2 & Hds & H1 & H2)]]);
        exists d; (split; [exact Hr|]); right.
      * subst d. split; [exact Hc|]. exists [], ds. split; [reflexivity|].
        split; [constructor | exact Hall].
      * split; [eapply earlier_trans; eassumption|].
        exists (x :: l1), l2. rewrite Hds. split; [reflexivity|].
        split; [constructor; assumption | exact H2].
Qed.

Lemma track_None ds r :
  track None ds = Return r ->
  match ds with
  | [] => r = None
  | _ :: _ => exists d, r = Some d /\ first_latest d ds
  end.
Proof.
  destruct ds as [|x ds]; cbn [track most_recent]; [intros [= <-]; reflexivity|].
  intros H.
  destruct (track_Some _ _ _ H) as (d & Hr & [[Hd Hall] | [Hxd (l1 & l2 & Hds & H1 & H2)]]);
    exists d; (split; [exact Hr|]).
  - subst d. exists [], ds. split; [reflexivity|]. split; [constructor | exact Hall].
  - exists (x :: l1), l2. rewrite Hds. split; [reflexivity|].
    split; [constructor; assumption | exact H2].
Qed.

Lemma most_recent_None last : most_recent None last = Return last.
Proof. reflexivity. Qed.

(** The tracked timestamps after the loop are those of [track] over the
    dates that parse. *)
Lemma fold_repos_track cutoff rs : forall st st',
  fold_repos' cutoff st rs = Return st' ->
  track (last_pushed_at st) (pushed_dates' rs) = Return (last_pushed_at st') /\
  track (last_updated_at st) (updated_dates' rs) = Return (last_updated_at st').
Proof.
  induction rs as [|r rs IH]; intros st st' H; cbn [Metrics.fold_repos] in H.
  - injection H as <-. split; reflexivity.
  - destruct (fold_repo' cutoff st r) as [st1|] eqn:Hstep; [|discriminate].
    destruct (fold_repo_Return _ _ _ _ _ _ Hstep) as (_ & _ & _ & _ & Hp & Hu & _).
    destruct (IH _ _ H) as [Hp' Hu'].
    unfold pushed_dates, updated_dates in *. cbn [omap list_omap].
    split.
    + destruct (iso_to_dt' (pushed_at r)) as [d|]; cbn [track].
      * rewrite Hp. exact Hp'.
      * rewrite most_recent_None in Hp. injection Hp as ->. exact Hp'.
    + destruct (iso_to_dt' (updated_at r)) as [d|]; cbn [track].
      * rewrite Hu. exact Hu'.
      * rewrite most_recent_None in Hu. injection Hu as ->. exact Hu'.
Qed.

(** X12. The most recent timestamps of a summary: null when no record
    has a value that parses; otherwise the rendering of the latest of
    the parsed values, and among equally late ones of the first. *)
Theorem last_timestamps_are_the_latest repos since_days m :
  analyze_repos' repos since_days = Return m ->
  match pushed_dates' repos with
  | [] => Summary.last_pushed_at m = None
  | _ :: _ => exists d, first_latest d (pushed_dates' repos) /\
                        Summary.last_pushed_at m = Some (isoformat d)
  end /\
  match updated_dates' repos with
  | [] => Summary.last_updated_at m = None
  | _ :: _ => exists d, first_latest d (updated_dates' repos) /\
                        Summary.last_updated_at m = Some (isoformat d)
  end.
Proof.
  intros H. destruct (analyze_repos_fold _ _ _ _ _ H) as (st & Hfold & ->).
  destruct (fold_repos_track _ _ _ _ Hfold) as [Hp Hu].
  cbn [initial last_pushed_at last_updated_at] in Hp, Hu.
  apply track_None in Hp. apply track_None in Hu.
  cbn [finish Summary.last_pushed_at Summary.last_updated_at].
  split.
  - destruct (pushed_dates' repos) as [|x xs]; [rewrite Hp; reflexivity|].
    destruct Hp as (d & Hr & Hd). exists d. rewrite Hr. split; [exact Hd | reflexivity].
  - destruct (updated_dates' repos) as [|x xs]; [rewrite Hu; reflexivity|].
    destruct Hu as (d & Hr & Hd). exists d. rewrite Hr. split; [exact Hd | reflexivity].
Qed.

(** *** When the fold fails *)






Lemma track_cons_returns_iff d last ds :
  (exists r, track last (d :: ds) = Return r) <->
  exists l, most_recent (Some d) last = Return l /\ exists r, track l ds = Return r.
Proof.
  cbn [track]. destruct (most_recent (Some d) last) as [l|].
  - split; [intros H; exists l; split; [reflexivity | exact H]|].
    intros (l' & [= <-] & H). exact H.
  - split; [intros [? ?]; discriminate | intros (? & ? & _); discriminate].
Qed.




End TrackFacts.

(** ** The fold: table totals, the window, and the trailing Z *)

Section TableFacts.
Import Datetime Metrics Recount.

Variable fromisoformat : string -> option datetime.
Variable now : nat -> Z.

#[local] Abbreviation iso_to_dt' := (iso_to_dt fromisoformat).
#[local] Abbreviation fold_repos' := (fold_repos fromisoformat now).
#[local] Abbreviation analyze_repos' := (analyze_repos fromisoformat now).
#[local] Abbreviation updated_dates' := (updated_dates fromisoformat).

Lemma table_total_incr k c : table_total (incr k c) = table_total c + 1.
Proof.
  induction c as [|[k' n] c IH]; cbn [incr table_total foldr snd]; [lia|].
  destruct (String.eqb k' k); cbn [table_total foldr snd].
  - lia.
  - fold (table_total (incr k c)) (table_total c). lia.
Qed.

Lemma table_total_tally ks : forall c,
  table_total (tally ks c) = table_total c + Z.of_nat (length ks).
Proof.
  induction ks as [|k ks IH]; intros c; cbn [tally fold_left length]; [lia|].
  fold (tally ks (incr k c)). rewrite IH, table_total_incr. lia.
Qed.

Lemma table_total_permutation c c' : Permutation c c' -> table_total c = table_total c'.
Proof.
  unfold table_total.
  induction 1 as [|e c c' _ IH|e e' c|c c' c'' _ IH1 _ IH2]; cbn [foldr]; lia.
Qed.

Lemma length_counted_months repos :
  length (omap (counted_month fromisoformat) repos) = length (updated_dates' repos).
Proof.
  unfold updated_dates, counted_month.
  induction repos as [|r repos IH]; cbn [omap list_omap]; [reflexivity|].
  destruct (iso_to_dt' (updated_at r)); cbn [fmap option_fmap option_map length]; lia.
Qed.

(** X14. The counts of the month table add up to the number of records
    whose [updated_at] parses, and those of the language table to the
    number of records with a language that is neither null nor empty:
    each such record is counted once, under one key. *)
Theorem tables_count_each_record_once repos since_days m :
  analyze_repos' repos since_days = Return m ->
  table_total (Summary.monthly_update_counts m) = Z.of_nat (length (updated_dates' repos)) /\
  table_total (Summary.languages m) = Z.of_nat (length (omap counted_language repos)).
Proof.
  intros H. destruct (analyze_repos_Return _ _ _ _ _ H) as [-> ->].
  unfold most_common, sorted_items.
  rewrite !(table_total_permutation _ _ (stable_sort_permutation _ _)).
  rewrite !table_total_tally, length_counted_months. cbn. split; lia.
Qed.

(** *** Another window *)

End TableFacts.

Section WindowFacts.
Import Datetime Metrics Recount.

Variable fromisoformat : string -> option datetime.
Variable now : nat -> Z.

#[local] Abbreviation fold_repo' := (fold_repo fromisoformat now).
#[local] Abbreviation fold_repos' := (fold_repos fromisoformat now).
#[local] Abbreviation analyze_repos' := (analyze_repos fromisoformat now).
#[local] Abbreviation updated_dates' := (updated_dates fromisoformat).

Lemma fold_repo_two_windows c1 c2 st1 st2 r :
  Window.same_but_window st1 st2 ->
  Window.alike_but_window (fold_repo' c1 st1 r) (fold_repo' c2 st2 r).
Proof.
  destruct st1, st2. unfold Window.same_but_window. cbn.
  intros (-> & -> & -> & -> & -> & -> & -> & ->).
  unfold fold_repo. cbn.
  destruct (most_recent _ last_pushed_at1) as [lp|]; [|reflexivity].
  destruct (most_recent _ last_updated_at1) as [lu|]; [|reflexivity].
  destruct (iso_to_dt fromisoformat (updated_at r)) as [u|].
  - destruct (minus_days _ _) as [mark|]; [|reflexivity].
    unfold not_before. destruct (utcoffset u); cbn; [|reflexivity].
    repeat split.
  - cbn. repeat split.
Qed.

Lemma fold_repos_two_windows c1 c2 rs : forall st1 st2,
  Window.same_but_window st1 st2 ->
  Window.alike_but_window (fold_repos' c1 st1 rs) (fold_repos' c2 st2 rs).
Proof.
  induction rs as [|r rs IH]; intros st1 st2 H; cbn [Metrics.fold_repos]; [exact H|].
  pose proof (fold_repo_two_windows c1 c2 st1 st2 r H) as Hstep.
  destruct (fold_repo' c1 st1 r), (fold_repo' c2 st2 r);
    cbn in Hstep; try contradiction; [apply IH; exact Hstep | exact Hstep].
Qed.

Lemma recent_since_antitone c1 c2 ds :
  c2 <= c1 -> recent_since c1 ds <= recent_since c2 ds.
Proof.
  intros Hc. induction ds as [|d ds IH]; cbn [recent_since]; [lia|].
  destruct (Z.leb_spec c1 (instant d)), (Z.leb_spec c2 (instant d)); lia.
Qed.

(** X15. The window [since_days] bears on [updated_last_90d] alone: two
    runs with the same clock and different windows, both within the
    range of dates, fail alike or give
    summaries equal in every other field, and the longer window counts
    at least as many updates. *)
Theorem window_bears_on_one_counter repos days1 days2 :
  Range.dates_in_range now days1 ->
  Range.dates_in_range now days2 ->
  match analyze_repos' repos days1, analyze_repos' repos days2 with
  | Return m1, Return m2 =>
      same_but_window m1 m2 /\
      (days1 <= days2 -> Summary.updated_last_90d m1 <= Summary.updated_last_90d m2)
  | Raise e1, Raise e2 => e1 = e2
  | _, _ => False
  end.
Proof.
  intros D1 D2.
  pose proof (rolling_counters_recounted_aux fromisoformat now repos days1) as R1.
  pose proof (rolling_counters_recounted_aux fromisoformat now repos days2) as R2.
  unfold analyze_repos in *.
  rewrite (dates_in_range_cutoff _ _ D1) in R1 |- *.
  rewrite (dates_in_range_cutoff _ _ D2) in R2 |- *.
  pose proof (fold_repos_two_windows (now O - days1 * micros_per_day)
                (now O - days2 * micros_per_day) repos initial initial) as H.
  destruct (fold_repos' _ initial repos) as [a|],
           (fold_repos' _ initial repos) as [b|]; cbn in H.
  - destruct H as (Hs & Hf & Hl & Hp & Hu & Hm & H30 & _); [repeat split|].
    split.
    + unfold same_but_window. cbn. rewrite Hs, Hf, Hl, Hp, Hu, Hm, H30. repeat split.
    + intros Hdays.
      destruct (R1 _ eq_refl) as [_ ->]. destruct (R2 _ eq_refl) as [_ ->].
      apply recent_since_antitone.
      unfold micros_per_day, micros_per_second. nia.
  - apply H. repeat split.
  - apply H. repeat split.
  - apply H. repeat split.
Qed.

(** *** The trailing Z *)

Lemma replace_app c b x y :
  Py.replace c b (x ++ y) = Py.replace c b x ++ Py.replace c b y.
Proof.
  induction x as [|a x IH]; [reflexivity|].
  change (String a x ++ y) with (String a (x ++ y)). cbn [Py.replace].
  rewrite IH. destruct (Ascii.eqb a c); [rewrite append_assoc|]; reflexivity.
Qed.

Lemma replace_avoids c b s : Fetch.avoids c s = true -> Py.replace c b s = s.
Proof.
  induction s as [|a s IH]; [reflexivity|].
  rewrite avoids_cons, andb_true_iff, negb_true_iff. intros [Ha Hs].
  cbn [Py.replace]. rewrite Ha, (IH Hs). reflexivity.
Qed.

Lemma truthy_app_r x y : Py.truthy y = true -> Py.truthy (x ++ y) = true.
Proof. destruct x; [intros H; exact H | reflexivity]. Qed.

(** X16. A timestamp that ends in [Z] is read as the same timestamp
    with the offset [+00:00] written out, whatever the parser does
    with it. *)
Theorem trailing_Z_is_utc s :
  Fetch.avoids "Z" s = true ->
  iso_to_dt fromisoformat (Some (s ++ "Z")) = iso_to_dt fromisoformat (Some (s ++ "+00:00")).
Proof.
  intros Hs. unfold iso_to_dt.
  rewrite !truthy_app_r by reflexivity.
  rewrite !replace_app, !(replace_avoids _ _ s Hs). reflexivity.
Qed.

End WindowFacts.

(** ** The developer list *)

Section DeveloperFacts.
Import Developers.

Variable urlparse : string -> option (string * string).

#[local] Abbreviation developer_of' := (developer_of urlparse).
#[local] Abbreviation read' := (read_developers_csv urlparse).

Lemma missing_nil_iff fieldnames :
  missing fieldnames = [] <->
  forall k, In k required -> In k (match fieldnames with Some l => l | None => [] end).
Proof.
  unfold missing. set (fs := match fieldnames with Some l => l | None => [] end).
  split.
  - intros H k Hk. apply mem_In. unfold Metrics.mem.
    destruct (existsb (String.eqb k) fs) eqn:E; [reflexivity|].
    assert (Hin : In k (List.filter (fun k => negb (existsb (String.eqb k) fs)) required))
      by (apply filter_In; split; [exact Hk | rewrite E; reflexivity]).
    rewrite H in Hin. destruct Hin.
  - intros H.
    assert (Hall : forall k, In k required ->
                     negb (existsb (String.eqb k) fs) = false).
    { intros k Hk. apply negb_false_iff. apply (proj2 (mem_In k fs)). auto. }
    clear H. induction required as [|k ks IH]; [reflexivity|].
    cbn [List.filter]. rewrite (Hall k) by (left; reflexivity).
    apply IH. intros k' Hk'. apply Hall. right. exact Hk'.
Qed.

(** X17. The three columns [name], [username] and [profile_url] are
    required: when the header has them all the rows are read, each row
    giving at most one developer, in row order; when one is missing, or
    there is no header, a [ValueError] is raised and no developer is
    returned, whatever the rows hold. *)
Theorem required_columns_or_ValueError fieldnames rows :
  ((forall k, In k required ->
      In k (match fieldnames with Some l => l | None => [] end)) ->
   read' fieldnames rows = Return (omap developer_of' rows) /\
   (length (omap developer_of' rows) <= length rows)%nat)
  /\
  ((exists k, In k required /\
      ~ In k (match fieldnames with Some l => l | None => [] end)) ->
   read' fieldnames rows = Raise ValueError).
Proof.
  unfold read_developers_csv. split.
  - intros H. rewrite (proj2 (missing_nil_iff fieldnames) H). split; [reflexivity|].
    clear H. induction rows as [|r rows IH]; cbn [omap list_omap length]; [lia|].
    destruct (developer_of' r); cbn [length]; lia.
  - intros (k & Hk & Hnot).
    destruct (missing fieldnames) as [|m ms] eqn:E; [|reflexivity].
    exfalso. apply Hnot. apply (proj1 (missing_nil_iff fieldnames) E). exact Hk.
Qed.

Lemma developer_of_Some r d :
  developer_of' r = Some d ->
  Py.truthy (username d) = true /\
  Py.truthy (name d) = true /\
  profile_url d = cell r "profile_url" /\
  (Py.truthy (cell r "username") = true -> username d = cell r "username") /\
  (if Py.truthy (cell r "name") then name d = cell r "name" else name d = username d).
Proof.
  unfold developer_of.
  set (u := if Py.truthy (cell r "username") then cell r "username"
            else match derived_username urlparse (cell r "profile_url") with
                 | Some u => u
                 | None => cell r "username"
                 end).
  destruct (Py.truthy u) eqn:Hu; [|discriminate].
  intros [= <-]. cbn [username name profile_url].
  split; [exact Hu|]. split.
  - destruct (Py.truthy (cell r "name")) eqn:Hn; [exact Hn | exact Hu].
  - split; [reflexivity|]. split.
    + intros Hc. unfold u. rewrite Hc. reflexivity.
    + destruct (Py.truthy (cell r "name")); reflexivity.
Qed.

(** X18. Every developer that is returned comes from a row and can be
    used: the user name and the name are not empty; a user name given
    in the row is kept over anything the profile address says; a blank
    name is replaced by the user name; the profile address is the
    cell of the row, stripped. *)
Theorem developers_are_usable fieldnames rows devs d :
  read' fieldnames rows = Return devs ->
  In d devs ->
  exists r,
    In r rows /\
    Py.truthy (username d) = true /\
    Py.truthy (name d) = true /\
    profile_url d = cell r "profile_url" /\
    (Py.truthy (cell r "username") = true -> username d = cell r "username") /\
    (if Py.truthy (cell r "name") then name d = cell r "name" else name d = username d).
Proof.
  unfold read_developers_csv. destruct (missing fieldnames); [|discriminate].
  intros [= <-] Hin.
  apply list_elem_of_In, list_elem_of_omap in Hin. destruct Hin as (r & Hr & Hd).
  exists r. split; [apply list_elem_of_In; exact Hr|].
  apply developer_of_Some. exact Hd.
Qed.

(** *** The user name in the profile address *)

Lemma lstrip_char_keeps c a s :
  Ascii.eqb a c = false -> lstrip_char c (String a s) = String a s.
Proof. intros H. cbn [lstrip_char]. rewrite H. reflexivity. Qed.

Lemma rstrip_char_app c seg : forall x,
  seg <> EmptyString ->
  Fetch.avoids c seg = true ->
  rstrip_char c (seg ++ x) = seg ++ rstrip_char c x.
Proof.
  induction seg as [|a seg IH]; intros x Hne Hav; [congruence|].
  rewrite avoids_cons, andb_true_iff, negb_true_iff in Hav. destruct Hav as [Ha Hav].
  change (String a seg ++ x) with (String a (seg ++ x)).
  change (String a seg ++ rstrip_char c x) with (String a (seg ++ rstrip_char c x)).
  cbn [rstrip_char]. destruct seg as [|b seg].
  - change (EmptyString ++ x) with x.
    change (EmptyString ++ rstrip_char c x) with (rstrip_char c x).
    destruct (rstrip_char c x); [rewrite Ha|]; reflexivity.
  - rewrite IH by (congruence || exact Hav). reflexivity.
Qed.

Lemma split_first sep seg y :
  Fetch.avoids sep seg = true ->
  (y = EmptyString \/ exists z, y = String sep z) ->
  exists rest, Py.split sep (seg ++ y) = seg :: rest.
Proof.
  intros Hav Hy. induction seg as [|a seg IH].
  - change (EmptyString ++ y) with y. destruct Hy as [->|[z ->]].
    + exists []. reflexivity.
    + exists (Py.split sep z). cbn [Py.split]. rewrite Ascii.eqb_refl. reflexivity.
  - rewrite avoids_cons, andb_true_iff, negb_true_iff in Hav. destruct Hav as [Ha Hav].
    destruct (IH Hav) as [rest Hrest]. exists rest.
    change (String a seg ++ y) with (String a (seg ++ y)).
    cbn [Py.split]. rewrite Ha, Hrest. reflexivity.
Qed.

Lemma rstrip_char_shape c x :
  rstrip_char c (String c x) = EmptyString \/
  exists z, rstrip_char c (String c x) = String c z.
Proof.
  cbn [rstrip_char]. destruct (rstrip_char c x).
  - left. rewrite Ascii.eqb_refl. reflexivity.
  - right. eexists. reflexivity.
Qed.

(** X19. When the user name of a row is blank and the profile address
    has a host ending in [github.com], the user name is the first
    segment of the path: what stands between the leading slash and the
    next slash or the end. *)
Theorem username_from_profile_path r netloc seg rest :
  Py.truthy (cell r "username") = false ->
  urlparse (cell r "profile_url") = Some (netloc, "/" ++ seg ++ rest) ->
  Fetch.endswith "github.com" netloc = true ->
  Py.truthy seg = true ->
  Fetch.avoids "/" seg = true ->
  (rest = EmptyString \/ exists t, rest = String "/" t) ->
  developer_of' r =
  Some (mkDeveloper (if Py.truthy (cell r "name") then cell r "name" else seg)
          seg (cell r "profile_url")).
Proof.
  intros Hblank Hparse Hhost Hseg Hav Hrest.
  assert (Hne : seg <> EmptyString) by (destruct seg; [discriminate | congruence]).
  assert (Hder : derived_username urlparse (cell r "profile_url") = Some seg).
  { unfold derived_username. rewrite Hparse, Hhost. unfold strip_char.
    change ("/" ++ seg ++ rest) with (String "/" (seg ++ rest)).
    cbn [lstrip_char]. rewrite Ascii.eqb_refl.
    assert (Hl : lstrip_char "/" (seg ++ rest) = seg ++ rest).
    { destruct seg as [|a seg]; [congruence|].
      rewrite avoids_cons, andb_true_iff, negb_true_iff in Hav.
      apply lstrip_char_keeps. tauto. }
    rewrite Hl, (rstrip_char_app _ _ _ Hne Hav).
    destruct (split_first "/" seg (rstrip_char "/" rest) Hav) as [parts Hparts].
    { destruct Hrest as [->|[t ->]]; [left; reflexivity | apply rstrip_char_shape]. }
    rewrite Hparts, Hseg. reflexivity. }
  unfold developer_of. rewrite Hblank, Hder, Hseg. reflexivity.
Qed.

End DeveloperFacts.

(** ** The further properties on worked inputs *)

Section FurtherExamples.
Import Http Replies Fetch Crawl Datetime Metrics Recount Developers.

#[local] Abbreviation run_at d := (analyze_repos fromisoformat (Sample.clock_at d)).

Lemma X1_witness :
  http_get_json Sample2.flaky Sample.ticking Sample.url 3 1 world0 =
  (Return (Sample.page_body, dict_of_items [("Content-Type", "application/json")]),
   mkWorld 4 0 [EvRequest Sample.url; EvSleep 1; EvRequest Sample.url; EvSleep 2;
                EvRequest Sample.url; EvSleep 3; EvRequest Sample.url])
  /\
  fst (http_get_json Sample2.always_down Sample.ticking Sample.url 3 1 world0) = Raise URLError.
Proof.
  split.
  - refine (proj1 (transient_failures_share_the_backoff _ Sample.ticking Sample.url 3 1
                     world0 3 _ _) _ _ _ eq_refl).
    + lia.
    + intros i Hi. destruct i as [|[|[|i]]]; [reflexivity..|lia].
    + lia.
  - rewrite (proj2 (transient_failures_share_the_backoff Sample2.always_down Sample.ticking
                      Sample.url 3 1 world0 4 ltac:(lia) (fun _ _ => eq_refl)) eq_refl).
    reflexivity.
Defined.

Lemma X2_witness :
  http_get_json (scripted [Sample2.not_found]) Sample.ticking Sample.url 3 1 world0 =
  (Raise (HTTPError 404 [("Content-Type", "application/json")]),
   mkWorld 1 0 [EvRequest Sample.url]).
Proof.
  apply (client_error_is_not_retried (scripted [Sample2.not_found]) Sample.ticking
           Sample.url 3 1 world0); [lia | reflexivity].
Defined.

Lemma X3_witness :
  http_get_json Sample.always_limited Sample.ticking Sample.url (-1) 1 world0 =
  (Raise (RuntimeError "GET failed without exception"), world0).
Proof. apply negative_budget_sends_nothing. lia. Defined.

Lemma X4_witness :
  http_get_json (scripted [HTTPErrorReply 403 Sample2.superscript_headers])
    Sample.ticking Sample.url 3 1 world0 =
  (Raise ValueError, mkWorld 1 0 [EvRequest Sample.url]).
Proof.
  apply (superscript_reset_raises_ValueError _ Sample.ticking Sample.url 3 1 world0
           Sample2.superscript_headers (String "178"%char EmptyString));
    [lia | reflexivity..].
Defined.


Lemma X6_witness :
  rate_limit_reset 403 [("X-RATELIMIT-RESET", "1700003600")] =
  rate_limit_reset 403 Sample.limit_headers.
Proof.
  apply rate_limit_detection_ignores_case.
  constructor; [split; reflexivity | constructor].
Defined.

Lemma X7_witness :
  paginate_repos Sample2.broken_link Sample.ticking 5 "octocat" world0 =
  mkRun [JObj [("name", JStr "alpha")]; JObj [("name", JStr "beta")]]
        (Failed (HTTPError 404 [("Content-Type", "application/json")]))
        (mkWorld 2 0 [EvRequest Sample.url; EvRequest Sample.page2_url]).
Proof.
  apply (failure_ends_the_generator Sample2.broken_link Sample.ticking
           [Sample.first_page] Sample.page2_url 5 "octocat" world0).
  - reflexivity.
  - intros i p Hi. destruct i as [|i]; cbn in Hi; try discriminate.
    injection Hi as <-. reflexivity.
  - split; [|exact I]. repeat split; reflexivity.
  - reflexivity.
  - cbn. lia.
  - reflexivity.
Defined.

Lemma X8_witness :
  next_url (dict_of_items [("Link", "<https://example.org/2>; rel=next")]) = None.
Proof.
  apply (link_without_quotes_names_no_page _ "<https://example.org/2>; rel=next");
    reflexivity.
Defined.

Lemma portfolio_summary :
  run_at Sample.midnight Sample.portfolio 90 =
  Return (Summary.mk 5 19 0 [("Go", 2); ("C", 2); ("Python", 1)] 0 5
            (Some "2024-01-10T08:30:00+00:00")
            (Some "2024-01-12T09:00:00+00:00") [("2024-01", 5)]).
Proof. vm_compute. reflexivity. Qed.

Lemma three_pushes_summary :
  run_at Sample.midnight Sample2.three_pushes 90 =
  Return (Summary.mk 3 3 0 [] 0 0 (Some "2024-03-01T12:00:00+02:00") None []).
Proof. vm_compute. reflexivity. Qed.

Lemma X9_witness :
  sum_of stargazers_count Sample.portfolio = 19 /\
  sum_of forks_count Sample.portfolio = 0.
Proof.
  destruct (totals_are_sums _ _ _ _ _ portfolio_summary) as [Hs Hf].
  split; [rewrite <- Hs | rewrite <- Hf]; reflexivity.
Defined.

Lemma X10_witness :
  recent_since (Sample.clock_at Sample.midnight O - 90 * micros_per_day)
    (updated_dates fromisoformat Sample.portfolio) = 5.
Proof.
  destruct (rolling_counters_recounted _ _ _ _ _ portfolio_summary) as (_ & H90 & _).
  rewrite <- H90. reflexivity.
Defined.

Lemma X11_witness :
  exists m, run_at Sample.midnight Sample.portfolio 90 = Return m /\
            Summary.updated_last_30d m <= Summary.updated_last_90d m.
Proof.
  eexists. split; [exact portfolio_summary|].
  apply (thirty_days_within_window fromisoformat (Sample.clock_at Sample.midnight)
           Sample.portfolio 90); [lia | intros k; reflexivity | exact portfolio_summary].
Defined.

Lemma X12_witness :
  exists d, first_latest d (pushed_dates fromisoformat Sample2.three_pushes) /\
            Some (isoformat d) = Some "2024-03-01T12:00:00+02:00".
Proof.
  destruct (last_timestamps_are_the_latest _ _ _ _ _ three_pushes_summary) as [Hp _].
  change (pushed_dates fromisoformat Sample2.three_pushes)
    with [mkDatetime 2024 1 10 8 30 0 0 (Some 0);
          mkDatetime 2024 3 1 12 0 0 0 (Some 7200000000);
          mkDatetime 2024 3 1 10 0 0 0 (Some 0)] in *.
  destruct Hp as (d & Hd & Hiso). exists d. split; [exact Hd|].
  cbn [Summary.last_pushed_at] in Hiso. symmetry. exact Hiso.
Defined.


Lemma X14_witness :
  table_total [("2024-01", 5)] = 5 /\
  table_total [("Go", 2); ("C", 2); ("Python", 1)] = 5.
Proof.
  destruct (tables_count_each_record_once _ _ _ _ _ portfolio_summary) as [Hm Hl].
  split; [exact Hm | exact Hl].
Defined.

Lemma X16_witness :
  iso_to_dt fromisoformat (Some "2024-01-15T00:00:00Z") =
  iso_to_dt fromisoformat (Some "2024-01-15T00:00:00+00:00").
Proof. apply (trailing_Z_is_utc fromisoformat "2024-01-15T00:00:00"). reflexivity. Defined.

Lemma X17_witness :
  read_developers_csv Sample2.urlparse_table Sample2.header Sample2.rows =
    Return (omap (developer_of Sample2.urlparse_table) Sample2.rows) /\
  read_developers_csv Sample2.urlparse_table (Some ["name"; "username"]) Sample2.rows =
    Raise ValueError.
Proof.
  split.
  - apply (proj1 (required_columns_or_ValueError Sample2.urlparse_table
                    Sample2.header Sample2.rows)).
    intros k Hk. cbn in Hk |- *. tauto.
  - apply (proj2 (required_columns_or_ValueError Sample2.urlparse_table
                    (Some ["name"; "username"]) Sample2.rows)).
    exists "profile_url". split; [cbn; tauto|].
    cbn. intros [H|[H|[]]]; discriminate.
Defined.

Lemma X18_witness :
  exists r, In r Sample2.rows /\ cell r "profile_url" = "https://example.org/ada".
Proof.
  destruct (developers_are_usable Sample2.urlparse_table Sample2.header Sample2.rows
              (omap (developer_of Sample2.urlparse_table) Sample2.rows)
              (mkDeveloper "Ada" "ada" "https://example.org/ada"))
    as (r & Hr & _ & _ & Hp & _).
  - reflexivity.
  - left. vm_compute. reflexivity.
  - exists r. split; [exact Hr | symmetry; exact Hp].
Defined.

Lemma X19_witness :
  developer_of Sample2.urlparse_table
    (Sample2.row_of EmptyString EmptyString "https://github.com/octocat/") =
  Some (mkDeveloper "octocat" "octocat" "https://github.com/octocat/").
Proof.
  rewrite (username_from_profile_path Sample2.urlparse_table
             (Sample2.row_of EmptyString EmptyString "https://github.com/octocat/")
             "github.com" "octocat" "/"); try reflexivity.
  right. exists EmptyString. reflexivity.
Defined.

Lemma X15_witness :
  exists m1 m2,
    run_at Sample.midnight Sample.three_updates 20 = Return m1 /\
    run_at Sample.midnight Sample.three_updates 90 = Return m2 /\
    Summary.updated_last_90d m1 <= Summary.updated_last_90d m2.
Proof.
  assert (H1 : run_at Sample.midnight Sample.three_updates 20 =
               Return (Summary.mk 3 0 0 [] 3 1 None (Some "2024-02-01T00:00:00+00:00")
                         [("2024-01", 2); ("2024-02", 1)]))
    by (vm_compute; reflexivity).
  assert (H2 : run_at Sample.midnight Sample.three_updates 90 =
               Return (Summary.mk 3 0 0 [] 3 3 None (Some "2024-02-01T00:00:00+00:00")
                         [("2024-01", 2); ("2024-02", 1)]))
    by (vm_compute; reflexivity).
  assert (Hrange : forall days, 0 <= days <= 3650 ->
            Range.dates_in_range (Sample.clock_at Sample.midnight) days).
  { intros days Hdays. unfold Range.dates_in_range, Range.representable, Sample.clock_at.
    change (wall_micros Sample.midnight) with 63843552000000000.
    unfold micros_per_day, micros_per_second. split; [lia | intros _; lia]. }
  generalize (window_bears_on_one_counter fromisoformat (Sample.clock_at Sample.midnight)
                Sample.three_updates 20 90 (Hrange 20 ltac:(lia)) (Hrange 90 ltac:(lia))).
  rewrite H1, H2. intros [_ Hle].
  eexists _, _. split; [reflexivity|]. split; [reflexivity|]. apply Hle. lia.
Defined.

End FurtherExamples.
